(** * A shallow embedding of [app.py] (RELATORIO_VENADAS_SF2)

    The program reads HAR captures of a point-of-sale web application,
    extracts product orders, table registrations and deletions
    ([process_har_file]), and consolidates them across uploads
    ([process_all_files]).

    Modelling conventions.
    - Python [str] values are modelled as Rocq [string]s whose characters are
      the code points U+0000-U+00FF.  The development is exact for ASCII
      text; for the other characters of that range, the UTF-8 decoding step
      of [urllib.parse.unquote] and the Unicode-only behaviours of
      [str.strip], [str.isdigit] and [str.lower] are not modelled, while
      [datetime.fromisoformat] and [secure_filename] are exact.
    - The Python version is CPython 3.10 (3.10.7 or later: [int()] of a
      string limits its digits), with pandas 2 and a recent werkzeug.
    - Python floats are modelled by [pyfloat]: exact rationals for finite
      values, plus the infinities and NaN.  Binary rounding is not modelled.
    - [json.loads] is not re-implemented: an uploaded file is given by the
      outcome of decoding and parsing it ([content]). *)

From Stdlib Require Import String Ascii List ZArith QArith Bool Lia.
From Stdlib Require Import Permutation Sorted Lqa.
Import ListNotations.
Open Scope string_scope.

(* ------------------------------------------------------------------ *)
(** ** Characters and Python string methods *)

Module PyStr.

Definition code (c : ascii) : nat := nat_of_ascii c.

Definition is_digit (c : ascii) : bool :=
  (48 <=? code c)%nat && (code c <=? 57)%nat.

Definition digit_val (c : ascii) : Z := Z.of_nat (code c - 48).

(** ASCII characters for which [str.isspace] holds: \t \n \v \f \r,
    \x1c-\x1f and the space. *)
Definition is_space (c : ascii) : bool :=
  let n := code c in
  ((9 <=? n)%nat && (n <=? 13)%nat) || ((28 <=? n)%nat && (n <=? 32)%nat).

Definition lower (c : ascii) : ascii :=
  let n := code c in
  if (65 <=? n)%nat && (n <=? 90)%nat then ascii_of_nat (n + 32) else c.

Definition upper (c : ascii) : ascii :=
  let n := code c in
  if (97 <=? n)%nat && (n <=? 122)%nat then ascii_of_nat (n - 32) else c.

Fixpoint smap (f : ascii -> ascii) (s : string) : string :=
  match s with
  | EmptyString => EmptyString
  | String c s' => String (f c) (smap f s')
  end.

(** [str.lower] / [str.upper] *)
Definition str_lower := smap lower.
Definition str_upper := smap upper.

Fixpoint lstrip (s : string) : string :=
  match s with
  | String c s' => if is_space c then lstrip s' else s
  | EmptyString => EmptyString
  end.

Definition rev_str (s : string) : string :=
  string_of_list_ascii (rev (list_ascii_of_string s)).

(** [str.strip()] *)
Definition strip (s : string) : string := rev_str (lstrip (rev_str (lstrip s))).

(** [str.replace(c, r)] for a one-character pattern [c]. *)
Fixpoint replace_char (c : ascii) (r : string) (s : string) : string :=
  match s with
  | EmptyString => EmptyString
  | String d s' =>
      if Ascii.eqb c d then r ++ replace_char c r s'
      else String d (replace_char c r s')
  end.

(** [s.startswith(w)] *)
Fixpoint starts_with (w s : string) : bool :=
  match w, s with
  | EmptyString, _ => true
  | String a w', String b s' => Ascii.eqb a b && starts_with w' s'
  | _, EmptyString => false
  end.

(** [w in s] for strings *)
Fixpoint contains (w s : string) : bool :=
  starts_with w s ||
  match s with
  | EmptyString => false
  | String _ s' => contains w s'
  end.

(** [s.endswith(w)] *)
Definition ends_with (w s : string) : bool :=
  starts_with (rev_str w) (rev_str s).

(** [s.split(sep)] for a non-empty separator: the string is scanned from
    the left and cut at every non-overlapping occurrence of [sep].
    [skip] counts the characters of an occurrence still to be dropped and
    [cur] holds the current piece, reversed. *)
Fixpoint split_go (sep : string) (s : string) (skip : nat) (cur : string)
  : list string :=
  match s with
  | EmptyString => [rev_str cur]
  | String c s' =>
      match skip with
      | S k => split_go sep s' k cur
      | O =>
          if starts_with sep s then
            rev_str cur :: split_go sep s' (String.length sep - 1) EmptyString
          else split_go sep s' O (String c cur)
      end
  end.

Definition split (sep s : string) : list string := split_go sep s O EmptyString.

(** [s.isdigit()] *)
Fixpoint all_digits (s : string) : bool :=
  match s with
  | EmptyString => true
  | String c s' => is_digit c && all_digits s'
  end.

Definition isdigit (s : string) : bool :=
  match s with EmptyString => false | _ => all_digits s end.

(** [int(s)] on a string of ASCII digits *)
Fixpoint digits_value_acc (s : string) (acc : Z) : Z :=
  match s with
  | EmptyString => acc
  | String c s' => digits_value_acc s' (acc * 10 + digit_val c)
  end.

Definition int_of_digits (s : string) : Z := digits_value_acc s 0.

End PyStr.

(* ------------------------------------------------------------------ *)
(** ** [urllib.parse.unquote_plus] *)

Module Url.
Import PyStr.

Definition hexval (c : ascii) : option nat :=
  let n := code c in
  if (48 <=? n)%nat && (n <=? 57)%nat then Some (n - 48)%nat
  else if (65 <=? n)%nat && (n <=? 70)%nat then Some (n - 55)%nat
  else if (97 <=? n)%nat && (n <=? 102)%nat then Some (n - 87)%nat
  else None.

(** [unquote]: every [%XX] with two hexadecimal digits becomes the byte
    [XX]; any other [%] is kept as it is. *)
Fixpoint unquote (s : string) : string :=
  match s with
  | EmptyString => EmptyString
  | String c r =>
      if Ascii.eqb c "%"%char then
        match r with
        | String a (String b r') =>
            match hexval a, hexval b with
            | Some x, Some y => String (ascii_of_nat (16 * x + y)) (unquote r')
            | _, _ => String c (unquote r)
            end
        | _ => String c (unquote r)
        end
      else String c (unquote r)
  end.

(** [unquote_plus]: [+] is a space, then [unquote]. *)
Definition unquote_plus (s : string) : string :=
  unquote (replace_char "+"%char " " s).

End Url.

(* ------------------------------------------------------------------ *)
(** ** Python floats and [float(str)] *)

Module PyFloat.
Import PyStr.

(** A Python float: a finite value (kept exact), an infinity of the given
    sign ([true] for negative), or NaN. *)
Inductive pyfloat : Type :=
| PFin (q : Q)
| PInf (neg : bool)
| PNaN.

Definition is_nan (x : pyfloat) : bool :=
  match x with PNaN => true | _ => false end.

(** [x + y] *)
Definition fadd (x y : pyfloat) : pyfloat :=
  match x, y with
  | PFin a, PFin b => PFin (a + b)
  | PFin _, PInf s | PInf s, PFin _ => PInf s
  | PInf s, PInf t => if Bool.eqb s t then PInf s else PNaN
  | _, _ => PNaN
  end.

(** [n * x] for a Python [int] [n] *)
Definition fmul_int (n : Z) (x : pyfloat) : pyfloat :=
  match x with
  | PFin a => PFin (inject_Z n * a)
  | PInf s => if (n =? 0)%Z then PNaN else PInf (xorb s (n <? 0)%Z)
  | PNaN => PNaN
  end.

(** [x * c] for a positive float constant [c] *)
Definition fscale (x : pyfloat) (c : Q) : pyfloat :=
  match x with
  | PFin a => PFin (a * c)
  | other => other
  end.

(** Float equality, [==] *)
Definition feqb (x y : pyfloat) : bool :=
  match x, y with
  | PFin a, PFin b => Qeq_bool a b
  | PInf s, PInf t => Bool.eqb s t
  | _, _ => false
  end.

(** [x < y] on non-NaN floats *)
Definition fltb (x y : pyfloat) : bool :=
  match x, y with
  | PFin a, PFin b => negb (Qle_bool b a)
  | PInf true, PInf false => true
  | PInf true, PFin _ => true
  | PFin _, PInf false => true
  | _, _ => false
  end.

(** [sum()] of a pandas float column: NaN values are skipped. *)
Definition fsum_skipna (l : list pyfloat) : pyfloat :=
  fold_left (fun acc x => if is_nan x then acc else fadd acc x) l (PFin 0).

(** The grammar of [float(str)] after the surrounding whitespace is
    stripped:
      [sign] (digitpart [. [digitpart]] | . digitpart) [(e|E) [sign] digitpart]
      | [sign] (inf | infinity | nan)      (any case)
    where digitpart = digit ([_] digit)*. *)

(** the digits of a digitpart after its first digit; returns the value,
    the number of digits and the rest of the input *)
Fixpoint digits_tail (s : string) (acc : Z) (n : nat) : Z * nat * string :=
  match s with
  | String c s' =>
      if is_digit c then digits_tail s' (acc * 10 + digit_val c) (S n)
      else if Ascii.eqb c "_"%char then
        match s' with
        | String d s'' =>
            if is_digit d then digits_tail s'' (acc * 10 + digit_val d) (S n)
            else (acc, n, s)
        | EmptyString => (acc, n, s)
        end
      else (acc, n, s)
  | EmptyString => (acc, n, EmptyString)
  end.

Definition digitpart (s : string) : option (Z * nat * string) :=
  match s with
  | String c s' => if is_digit c then Some (digits_tail s' (digit_val c) 1) else None
  | EmptyString => None
  end.

(** [m * 10 ^ e] as a rational *)
Definition scaled (m : Z) (e : Z) : Q :=
  if (0 <=? e)%Z then inject_Z (m * 10 ^ e) else Qmake m (Z.to_pos (10 ^ (- e))).

Definition sign_of (s : string) : bool * string :=
  match s with
  | String c s' =>
      if Ascii.eqb c "-"%char then (true, s')
      else if Ascii.eqb c "+"%char then (false, s')
      else (false, s)
  | EmptyString => (false, s)
  end.

(** the exponent part: empty, or [e] / [E], a sign and a digitpart ending
    the input *)
Definition exponent (s : string) : option Z :=
  match s with
  | EmptyString => Some 0%Z
  | String c s' =>
      if Ascii.eqb c "e"%char || Ascii.eqb c "E"%char then
        let (neg, s'') := sign_of s' in
        match digitpart s'' with
        | Some (v, _, EmptyString) => Some (if neg then (- v)%Z else v)
        | _ => None
        end
      else None
  end.

(** an unsigned finite number *)
Definition number (s : string) : option Q :=
  let '(ip, r1) :=
    match digitpart s with
    | Some (v, n, r) => (Some (v, n), r)
    | None => (None, s)
    end in
  let '(fp, r2) :=
    match r1 with
    | String c r =>
        if Ascii.eqb c "."%char then
          match digitpart r with
          | Some (v, n, r') => (Some (v, n), r')
          | None => (None, r)
          end
        else (None, r1)
    | EmptyString => (None, r1)
    end in
  match ip, fp with
  | None, None => None
  | _, _ =>
      let iv := match ip with Some (v, _) => v | None => 0%Z end in
      let '(fv, fn) := match fp with Some (v, n) => (v, n) | None => (0%Z, O) end in
      match exponent r2 with
      | Some e => Some (scaled (iv * 10 ^ Z.of_nat fn + fv) (e - Z.of_nat fn))
      | None => None
      end
  end.

(** [float(s)]; [None] is the [ValueError] *)
Definition py_float (s : string) : option pyfloat :=
  let '(neg, body) := sign_of (strip s) in
  let b := str_lower body in
  if String.eqb b "inf" || String.eqb b "infinity" then Some (PInf neg)
  else if String.eqb b "nan" then Some PNaN
  else match number body with
       | Some q => Some (PFin (if neg then - q else q))
       | None => None
       end.

End PyFloat.

(* ------------------------------------------------------------------ *)
(** ** [parse_nomeprod] *)

Module Nomeprod.
Import PyStr Url PyFloat.

(** [partes[1].replace(".", "").replace(",", ".").replace(" ", "")] *)
Definition clean_price (p : string) : string :=
  replace_char " "%char "" (replace_char ","%char "." (replace_char "."%char "" p)).

(** [parse_nomeprod(produto_str)]: the body of the [try]; [None] is an
    exception ([IndexError] on [partes[1]], [ValueError] from [float]). *)
Definition parse_nomeprod_try (produto_str : string) : option (string * pyfloat) :=
  let produto_dec := unquote_plus produto_str in
  if contains "R$" produto_dec then
    let partes := split "R$" produto_dec in
    let nome := strip (nth 0 partes "") in
    match nth_error partes 1 with
    | Some p1 =>
        match py_float (clean_price p1) with
        | Some valor_unit => Some (nome, valor_unit)
        | None => None
        end
    | None => None
    end
  else Some (strip produto_dec, PFin 0).

(** the [except Exception: return produto_str, 0.0] fallback *)
Definition parse_nomeprod (produto_str : string) : string * pyfloat :=
  match parse_nomeprod_try produto_str with
  | Some r => r
  | None => (produto_str, PFin 0)
  end.

End Nomeprod.

(* ------------------------------------------------------------------ *)
(** ** The regular expressions

    The three patterns of the program, and the [referer] pattern, are
    sequences of literals and repetitions of a single character class.
    [match_at] is the backtracking semantics of Python's [re] for such
    patterns: a greedy repetition tries its longest run first, a lazy one
    its shortest first, and the first complete match wins; [search] tries
    the start positions from left to right. *)

Module Re.
Import PyStr.

Inductive cls : Type :=
| AnyChar    (** [.] : every character but a newline *)
| NotAmp     (** [[^&]] *)
| Digit.     (** [\d] *)

Definition cls_match (k : cls) (c : ascii) : bool :=
  match k with
  | AnyChar => negb (Ascii.eqb c "010"%char)
  | NotAmp => negb (Ascii.eqb c "&"%char)
  | Digit => is_digit c
  end.

Inductive piece : Type :=
| Lit (ci : bool) (w : string)
    (** a literal, case-insensitive when [ci] ([re.IGNORECASE]) *)
| Rep (k : cls) (plus : bool) (greedy : bool) (cap : bool).
    (** [k*] or [k+] ([plus]), greedy or lazy, a capture group or not *)

Definition char_eq (ci : bool) (a b : ascii) : bool :=
  if ci then Ascii.eqb (lower a) (lower b) else Ascii.eqb a b.

Fixpoint eat_lit (ci : bool) (w s : string) : option string :=
  match w, s with
  | EmptyString, _ => Some s
  | String a w', String b s' => if char_eq ci a b then eat_lit ci w' s' else None
  | _, EmptyString => None
  end.

Fixpoint run_len (k : cls) (s : string) : nat :=
  match s with
  | String c s' => if cls_match k c then S (run_len k s') else O
  | EmptyString => O
  end.

Fixpoint first_some {A B : Type} (f : A -> option B) (l : list A) : option B :=
  match l with
  | [] => None
  | x :: l' => match f x with Some y => Some y | None => first_some f l' end
  end.

(** the captured groups, in order, of a match of [ps] at the start of [s] *)
Fixpoint match_at (ps : list piece) (s : string) : option (list string) :=
  match ps with
  | [] => Some []
  | Lit ci w :: ps' =>
      match eat_lit ci w s with
      | Some s' => match_at ps' s'
      | None => None
      end
  | Rep k plus greedy cap :: ps' =>
      let n := run_len k s in
      let lo := if plus then 1%nat else 0%nat in
      let lens := seq lo (S n - lo) in
      let lens := if greedy then rev lens else lens in
      first_some
        (fun len =>
           match match_at ps' (substring len (String.length s - len) s) with
           | Some caps => Some (if cap then substring 0 len s :: caps else caps)
           | None => None
           end) lens
  end.

(** [pattern.search(s)] *)
Fixpoint search (ps : list piece) (s : string) : option (list string) :=
  match match_at ps s with
  | Some caps => Some caps
  | None =>
      match s with
      | EmptyString => None
      | String _ s' => search ps s'
      end
  end.

(** [nomeprod=(?P<produto>.+?)&.*mesa=(?P<mesa>[^&]+).*quant=(?P<quant>\d+)],
    [re.IGNORECASE] *)
Definition regex_url : list piece :=
  [Lit true "nomeprod="; Rep AnyChar true false true; Lit true "&";
   Rep AnyChar false true false; Lit true "mesa="; Rep NotAmp true true true;
   Rep AnyChar false true false; Lit true "quant="; Rep Digit true true true].

(** [/connect\.php\?mesa=(?P<mesa>[^&]+)&id=], [re.IGNORECASE] *)
Definition regex_cadastro_mesa : list piece :=
  [Lit true "/connect.php?mesa="; Rep NotAmp true true true; Lit true "&id="].

(** [delete=(?P<delete_id>\d+)], [re.IGNORECASE] *)
Definition regex_deletado : list piece :=
  [Lit true "delete="; Rep Digit true true true].

(** [mesa=([^&]+)], case-sensitive *)
Definition regex_referer_mesa : list piece :=
  [Lit false "mesa="; Rep NotAmp true true true].

(** the class and the [+] flag of every capture group of a pattern, in
    order *)
Fixpoint cap_specs (ps : list piece) : list (cls * bool) :=
  match ps with
  | [] => []
  | Lit _ _ :: ps' => cap_specs ps'
  | Rep k plus _ cap :: ps' => if cap then (k, plus) :: cap_specs ps' else cap_specs ps'
  end.

(** every character of [s] is in the class [k] *)
Fixpoint all_cls (k : cls) (s : string) : bool :=
  match s with
  | EmptyString => true
  | String c s' => cls_match k c && all_cls k s'
  end.

End Re.

(* ------------------------------------------------------------------ *)
(** ** JSON values as Python sees them after [json.loads] *)

Module Json.
Import PyStr.

Local Set Warnings "-register-all".

Inductive json : Type :=
| JNull
| JBool (b : bool)
| JNum (q : Q)
| JStr (s : string)
| JArr (l : list json)
| JObj (kvs : list (string * json)).

(** [d[k]] on a dict built from an object: the last binding of [k] wins *)
Fixpoint lookup (k : string) (kvs : list (string * json)) : option json :=
  match kvs with
  | [] => None
  | (k', v) :: kvs' =>
      match lookup k kvs' with
      | Some w => Some w
      | None => if String.eqb k k' then Some v else None
      end
  end.

(** [v[k]] with a string key; [None] is a [KeyError] or a [TypeError] *)
Definition getitem (v : json) (k : string) : option json :=
  match v with
  | JObj kvs => lookup k kvs
  | _ => None
  end.

(** [v.get(k, default)]; [None] is the [AttributeError] of a non-dict *)
Definition get (v : json) (k : string) (default : json) : option json :=
  match v with
  | JObj kvs => Some (match lookup k kvs with Some w => w | None => default end)
  | _ => None
  end.

(** [bool(v)] *)
Definition truthy (v : json) : bool :=
  match v with
  | JNull => false
  | JBool b => b
  | JNum q => negb (Qeq_bool q 0)
  | JStr s => negb (String.eqb s "")
  | JArr l => match l with [] => false | _ => true end
  | JObj kvs => match kvs with [] => false | _ => true end
  end.

Fixpoint chars (s : string) : list json :=
  match s with
  | EmptyString => []
  | String c s' => JStr (String c EmptyString) :: chars s'
  end.

(** [for x in v]: the items of a list, the characters of a string, the
    keys of a dict; [None] is the [TypeError] of a scalar *)
Definition iter (v : json) : option (list json) :=
  match v with
  | JArr l => Some l
  | JStr s => Some (chars s)
  | JObj kvs => Some (map (fun kv => JStr (fst kv)) kvs)
  | _ => None
  end.

(** [v == 200] *)
Definition eq_200 (v : json) : bool :=
  match v with
  | JNum q => Qeq_bool q 200
  | _ => false
  end.

(** [s in v] for a string [s]; [None] is the [TypeError] of a scalar *)
Definition py_in (s : string) (v : json) : option bool :=
  match v with
  | JStr t => Some (contains s t)
  | JArr l => Some (existsb (fun x => match x with JStr t => String.eqb s t | _ => false end) l)
  | JObj kvs => Some (match lookup s kvs with Some _ => true | None => false end)
  | _ => None
  end.

End Json.


(* ------------------------------------------------------------------ *)
(** ** Timestamps

    Wall times and instants are counted in microseconds from
    1970-01-01T00:00:00 (proleptic Gregorian calendar). *)

Module Time.
Import PyStr Json.
Open Scope Z_scope.

(** days from 1970-01-01 to the civil date [y-m-d] *)
Definition days_from_civil (y m d : Z) : Z :=
  let y := if m <=? 2 then y - 1 else y in
  let era := y / 400 in
  let yoe := y - era * 400 in
  let mp := if 2 <? m then m - 3 else m + 9 in
  let doy := (153 * mp + 2) / 5 + d - 1 in
  let doe := yoe * 365 + yoe / 4 - yoe / 100 + doy in
  era * 146097 + doe - 719468.

(** the civil date of a day count *)
Definition civil_from_days (z : Z) : Z * Z * Z :=
  let z := z + 719468 in
  let era := z / 146097 in
  let doe := z - era * 146097 in
  let yoe := (doe - doe / 1460 + doe / 36524 - doe / 146096) / 365 in
  let doy := doe - (365 * yoe + yoe / 4 - yoe / 100) in
  let mp := (5 * doy + 2) / 153 in
  let d := doy - (153 * mp + 2) / 5 + 1 in
  let m := if mp <? 10 then mp + 3 else mp - 9 in
  ((if m <=? 2 then yoe + era * 400 + 1 else yoe + era * 400), m, d).

Definition leap (y : Z) : bool :=
  (y mod 4 =? 0) && (negb (y mod 100 =? 0) || (y mod 400 =? 0)).

Definition days_in_month (y m : Z) : Z :=
  if m =? 2 then (if leap y then 29 else 28)
  else if (m =? 4) || (m =? 6) || (m =? 9) || (m =? 11) then 30 else 31.

Definition us_per_s : Z := 1000000.
Definition us_per_day : Z := 86400 * us_per_s.

(** The [horario] field of an event: [""] when [startedDateTime] is absent
    or empty, the [datetime] given by [datetime.fromisoformat] (a wall time
    and, when the string has one, its UTC offset in microseconds), the raw
    string when [fromisoformat] raised, or the value itself when it is a
    truthy non-string (its [.replace] raises [AttributeError], which the
    bare [except] of lines 70-71 catches too). *)
Inductive horario : Type :=
| HEmpty
| HDt (wall_us : Z) (offset_us : option Z)
| HRaw (raw : string)
| HOther (v : json).

(** *** [datetime.fromisoformat] (CPython 3.10, [_datetimemodule.c])

    The C code works on the UTF-8 bytes of the string, read as a
    NUL-terminated C string; [utf8] encodes a string whose characters are
    the code points U+0000-U+00FF. *)

Definition utf8_char (c : ascii) : list Z :=
  let n := Z.of_nat (code c) in
  if n <? 128 then [n] else [192 + n / 64; 128 + n mod 64].

Fixpoint utf8 (s : string) : list Z :=
  match s with
  | EmptyString => []
  | String c s' => utf8_char c ++ utf8 s'
  end.

(** [*p] at position [i]: past the last byte is the terminating NUL *)
Definition at_ (bs : list Z) (i : nat) : Z := nth i bs 0.

(** [parse_digits(ptr, var, n)]: [n] digits accumulated onto [acc]; the
    position after them, [None] for [NULL] *)
Fixpoint parse_digits (bs : list Z) (i : nat) (acc : Z) (n : nat) : option (nat * Z) :=
  match n with
  | O => Some (i, acc)
  | S n' =>
      let b := at_ bs i in
      if (48 <=? b) && (b <=? 57) then parse_digits bs (S i) (acc * 10 + (b - 48)) n'
      else None
  end.

Definition obind {A B} (o : option A) (f : A -> option B) : option B :=
  match o with Some a => f a | None => None end.
Local Notation "x <- a ;; b" := (obind a (fun x => b))
  (at level 61, a at next level, right associativity).
Local Notation "' p <- a ;; b" := (obind a (fun x => match x with p => b end))
  (at level 61, p pattern, a at next level, right associativity).

(** [parse_isoformat_date]: [YYYY-MM-DD] at the start; [None] is a
    negative return code *)
Definition parse_isoformat_date (bs : list Z) : option (Z * Z * Z) :=
  '(p1, year) <- parse_digits bs 0 0 4 ;;
  if negb (at_ bs p1 =? 45) then None else
  '(p2, month) <- parse_digits bs (S p1) 0 2 ;;
  if negb (at_ bs p2 =? 45) then None else
  '(_, day) <- parse_digits bs (S p2) 0 2 ;;
  Some (year, month, day).

(** the loop [for (i = 0; i < 3; ++i)] of [parse_hh_mm_ss_ff]: [k]
    components left, [vals] those read so far; [inl rv] is a return from
    inside the loop, [inr p] the position of the fraction after the loop
    (a [.] or three components); [None] is a negative return code *)
Fixpoint hms_loop (bs : list Z) (p p_end : nat) (k : nat) (vals : list Z)
  : option ((Z + nat) * list Z) :=
  match k with
  | O => Some (inr p, vals)
  | S k' =>
      '(p1, v) <- parse_digits bs p 0 2 ;;
      let c := at_ bs p1 in
      let vals' := (vals ++ [v])%list in
      if (p_end <=? S p1)%nat then Some (inl (if c =? 0 then 0 else 1), vals')
      else if c =? 58 then hms_loop bs (S p1) p_end k' vals'
      else if c =? 46 then Some (inr (S p1), vals')
      else None
  end.

(** [parse_hh_mm_ss_ff(tstr, tstr_end, ...)]: the return code (0, or 1
    when a character follows) and hour, minute, second, microsecond *)
Definition parse_hh_mm_ss_ff (bs : list Z) (p p_end : nat)
  : option (Z * (Z * Z * Z * Z)) :=
  '(r, vals) <- hms_loop bs p p_end 3 [] ;;
  let h := nth 0 vals 0 in
  let m := nth 1 vals 0 in
  let s := nth 2 vals 0 in
  match r with
  | inl rv => Some (rv, (h, m, s, 0))
  | inr q =>
      let len_remains := (p_end - q)%nat in
      if (len_remains =? 6)%nat || (len_remains =? 3)%nat then
        '(q', f) <- parse_digits bs q 0 len_remains ;;
        let us := if (len_remains =? 3)%nat then f * 1000 else f in
        Some (if at_ bs q' =? 0 then 0 else 1, (h, m, s, us))
      else None
  end.

(** the [do { ... } while (++tzinfo_pos < p_end)] search for the first
    [+] or [-]; [n] is [p_end - q] *)
Fixpoint find_tz (bs : list Z) (q : nat) (n : nat) : nat :=
  if (at_ bs q =? 43) || (at_ bs q =? 45) then q
  else match n with
       | O | S O => S q
       | S n' => find_tz bs (S q) n'
       end.

(** [parse_isoformat_time(dtstr, dtlen, ...)]: the time and, with a UTC
    offset, the offset's seconds and microseconds *)
Definition parse_isoformat_time (bs : list Z) (p len : nat)
  : option ((Z * Z * Z * Z) * option (Z * Z)) :=
  let p_end := (p + len)%nat in
  let tzpos := find_tz bs p (p_end - p) in
  '(rv, hms) <- parse_hh_mm_ss_ff bs p tzpos ;;
  if (tzpos =? p_end)%nat then
    if rv =? 1 then None else Some (hms, None)
  else
    let tzlen := (p_end - tzpos)%nat in
    if (tzlen =? 6)%nat || (tzlen =? 9)%nat || (tzlen =? 16)%nat then
      let tzsign := if at_ bs tzpos =? 45 then -1 else 1 in
      '(rv', (th, tm, ts, tus)) <- parse_hh_mm_ss_ff bs (S tzpos) p_end ;;
      if rv' =? 0
      then Some (hms, Some (tzsign * (th * 3600 + tm * 60 + ts), tzsign * tus))
      else None
    else None.

(** [tzinfo_from_isoformat_results] and [new_timezone]: a zero offset is
    UTC (its microseconds are ignored); any other offset must lie strictly
    between -24 h and 24 h, otherwise [ValueError] *)
Definition tzinfo_of (tz : option (Z * Z)) : option (option Z) :=
  match tz with
  | None => Some None
  | Some (secs, usecs) =>
      if secs =? 0 then Some (Some 0)
      else
        let total := secs * us_per_s + usecs in
        if (- us_per_day <? total) && (total <? us_per_day) then Some (Some total) else None
  end.

(** [datetime.fromisoformat(s)] as CPython 3.10 implements it: the wall
    time in microseconds and the UTC offset in microseconds; [None] is the
    [ValueError].  The date is [YYYY-MM-DD]; a longer string has one
    separator character (any character) and a time part. *)
Definition fromisoformat (s : string) : option (Z * option Z) :=
  let bs := utf8 s in
  let len := length bs in
  '(year, month, day) <- parse_isoformat_date bs ;;
  '((hour, minute, second, microsecond), tz) <-
    (if (10 <? len)%nat then
       let b := at_ bs 10 in
       let skip := if Z.land b 128 =? 0 then 11%nat
                   else if Z.land b 240 =? 224 then 13%nat
                   else if Z.land b 240 =? 240 then 14%nat
                   else 12%nat in
       parse_isoformat_time bs skip (len - skip)
     else Some ((0, 0, 0, 0), None)) ;;
  tzinfo <- tzinfo_of tz ;;
  (* new_datetime: check_date_args and check_time_args *)
  if (1 <=? year) && (year <=? 9999) && (1 <=? month) && (month <=? 12)
     && (1 <=? day) && (day <=? days_in_month year month)
     && (0 <=? hour) && (hour <? 24) && (0 <=? minute) && (minute <? 60)
     && (0 <=? second) && (second <? 60)
  then Some (days_from_civil year month day * us_per_day
             + ((hour * 60 + minute) * 60 + second) * us_per_s + microsecond, tzinfo)
  else None.

(** [horario] as computed in [process_har_file] from a truthy
    [startedDateTime] string *)
Definition parse_horario (started : string) : horario :=
  match fromisoformat (replace_char "Z"%char "+00:00" started) with
  | Some (w, off) => HDt w off
  | None => HRaw started
  end.

(** *** [pd.to_datetime(col, errors="coerce", utc=True)]

    The instant in UTC (microseconds) of a [datetime] object: an aware one
    is shifted by its offset, a naive one is taken as UTC; instants outside
    the range of [datetime64[ns]] are NaT ([None]). *)
Definition datetime_to_utc (w : Z) (off : option Z) : option Z :=
  let t := match off with Some o => w - o | None => w end in
  if (- (2 ^ 63 - 1) <=? t * 1000) && (t * 1000 <=? 2 ^ 63 - 1) then Some t else None.

(** The instant of one value of a [horario] column.  [""] is NaT.  Strings
    that [fromisoformat] rejected and non-string values go to pandas' own
    parser, whose result can depend on the whole column (pandas guesses a
    format from the column's first string); it is not embedded here but
    left as the parameter [pd_parse], given the column and the value, and
    the properties below hold for every such parser. *)
Definition column_instant (pd_parse : list horario -> horario -> option Z)
  (col : list horario) (h : horario) : option Z :=
  match h with
  | HEmpty => None
  | HDt w off => datetime_to_utc w off
  | HRaw _ | HOther _ => pd_parse col h
  end.

(** *** [.dt.tz_convert('America/Sao_Paulo')]

    The zone of the tz database as pandas 2 reads it through pytz:
    (UTC instant in seconds, UTC offset in seconds) for every transition,
    from the adoption of standard time in 1914 to the end of the last
    daylight-saving period on 2019-02-17.  Before the first transition the
    local mean time applies, -3:06:28, which pytz rounds to whole minutes
    (-3:06). *)
Definition sao_paulo_transitions : list (Z * Z) :=
  [
   (-1767214412, -10800); (-1206957600, -7200); (-1191362400, -10800);
   (-1175374800, -7200); (-1159826400, -10800); (-633819600, -7200);
   (-622069200, -10800); (-602283600, -7200); (-591832800, -10800);
   (-570747600, -7200); (-560210400, -10800); (-539125200, -7200);
   (-531352800, -10800); (-195426000, -7200); (-184197600, -10800);
   (-155163600, -7200); (-150069600, -10800); (-128898000, -7200);
   (-121125600, -10800); (-99954000, -7200); (-89589600, -10800);
   (-68418000, -7200); (-57967200, -10800); (499748400, -7200);
   (511236000, -10800); (530593200, -7200); (540266400, -10800);
   (562129200, -7200); (571197600, -10800); (592974000, -7200);
   (602042400, -10800); (624423600, -7200); (634701600, -10800);
   (656478000, -7200); (666756000, -10800); (687927600, -7200);
   (697600800, -10800); (719982000, -7200); (728445600, -10800);
   (750826800, -7200); (761709600, -10800); (782276400, -7200);
   (793159200, -10800); (813726000, -7200); (824004000, -10800);
   (844570800, -7200); (856058400, -10800); (876106800, -7200);
   (888717600, -10800); (908074800, -7200); (919562400, -10800);
   (938919600, -7200); (951616800, -10800); (970974000, -7200);
   (982461600, -10800); (1003028400, -7200); (1013911200, -10800);
   (1036292400, -7200); (1045360800, -10800); (1066532400, -7200);
   (1076810400, -10800); (1099364400, -7200); (1108864800, -10800);
   (1129431600, -7200); (1140314400, -10800); (1162695600, -7200);
   (1172368800, -10800); (1192330800, -7200); (1203213600, -10800);
   (1224385200, -7200); (1234663200, -10800); (1255834800, -7200);
   (1266717600, -10800); (1287284400, -7200); (1298167200, -10800);
   (1318734000, -7200); (1330221600, -10800); (1350788400, -7200);
   (1361066400, -10800); (1382238000, -7200); (1392516000, -10800);
   (1413687600, -7200); (1424570400, -10800); (1445137200, -7200);
   (1456020000, -10800); (1476586800, -7200); (1487469600, -10800);
   (1508036400, -7200); (1518919200, -10800); (1541300400, -7200);
   (1550368800, -10800)
  ].

Definition sao_paulo_lmt : Z := -11160.

(** the offset in seconds at the instant [t_us] *)
Definition sao_paulo_offset (t_us : Z) : Z :=
  fold_left (fun off tr => if fst tr * us_per_s <=? t_us then snd tr else off)
            sao_paulo_transitions sao_paulo_lmt.

(** [.dt.tz_convert(FUSO_BRASILIA)] followed by [.dt.tz_localize(None)]:
    the wall time in Sao Paulo *)
Definition to_brasilia_wall (t_us : Z) : Z := t_us + sao_paulo_offset t_us * us_per_s.

Definition pad (n : nat) (v : Z) : string :=
  let fix go (n : nat) (v : Z) (acc : string) : string :=
    match n with
    | O => acc
    | S n' => go n' (v / 10) (String (ascii_of_nat (48 + Z.to_nat (v mod 10))) acc)
    end in
  go n v EmptyString.

(** [strftime('%Y-%m-%d')] of a wall time *)
Definition fmt_date (w : Z) : string :=
  let '(y, m, d) := civil_from_days (w / us_per_day) in
  pad 4 y ++ "-" ++ pad 2 m ++ "-" ++ pad 2 d.

(** [strftime('%H:%M:%S')] of a wall time *)
Definition fmt_time (w : Z) : string :=
  let s := (w mod us_per_day) / us_per_s in
  pad 2 (s / 3600) ++ ":" ++ pad 2 ((s / 60) mod 60) ++ ":" ++ pad 2 (s mod 60).

(** [.dt.floor("s")] of a wall time *)
Definition floor_s (w : Z) : Z := (w / us_per_s) * us_per_s.

End Time.


(* ------------------------------------------------------------------ *)
(** ** Events *)

Module Events.
Import PyFloat Time Json.

(** an element of [lancamentos] *)
Record order := {
  o_request : string;          (** "request" *)
  o_response : json;           (** "response" *)
  o_produto : string;          (** "produto" *)
  o_qtde : Z;                  (** "Qtde" *)
  o_horario : horario;         (** "horario" *)
  o_valor_unit : pyfloat;      (** "valor unitario" *)
  o_valor_total : pyfloat;     (** "valor total" *)
  o_mesa : string;             (** "mesa" *)
  o_arquivo : string;          (** "arquivo_origem" *)
  o_lancamento_id : option string  (** "lancamento_id" *)
}.

(** an element of [mesas_cadastradas_raw] *)
Record registration := {
  r_mesa : string;
  r_horario_cadastro : horario;
  r_request : string;
  r_response : json;
  r_arquivo : string
}.

(** an element of [itens_deletados] *)
Record deletion := {
  d_delete_id : string;
  d_mesa_del_ref : string;
  d_horario : horario;
  d_status : json;
  d_request : string;
  d_arquivo : string
}.

Inductive event : Type :=
| EvOrder (o : order)
| EvReg (r : registration)
| EvDel (d : deletion).

End Events.

(* ------------------------------------------------------------------ *)
(** ** [process_har_file] *)

Module Extract.
Import PyStr Url PyFloat Time Json Events Nomeprod.

Definition obind {A B} (o : option A) (f : A -> option B) : option B :=
  match o with Some a => f a | None => None end.
Local Notation "x <- a ;; b" := (obind a (fun x => b))
  (at level 61, a at next level, right associativity).

Definition as_str (v : json) : option string :=
  match v with JStr s => Some s | _ => None end.

(** [{h["name"].lower(): h["value"] for h in hs}], as an association list
    whose last binding of a name wins *)
Fixpoint header_pairs (hs : list json) : option (list (string * json)) :=
  match hs with
  | [] => Some []
  | h :: hs' =>
      n <- obind (getitem h "name") as_str ;;
      v <- getitem h "value" ;;
      rest <- header_pairs hs' ;;
      Some ((str_lower n, v) :: rest)
  end.

(** [horario] from the [startedDateTime] value (lines 66-71): [""] when
    it is falsy, otherwise the outcome of [fromisoformat]; a truthy
    non-string raises [AttributeError] in [.replace], and the bare [except]
    keeps the value itself *)
Definition horario_of (started : json) : horario :=
  if truthy started then
    match started with
    | JStr s => parse_horario s
    | _ => HOther started
    end
  else HEmpty.

(** [lancamento_id]; [None] is the [AttributeError] of [.strip] on a
    truthy non-string response body *)
Definition lancamento_id_of (body : json) : option (option string) :=
  if truthy body then
    match body with
    | JStr b => let c := strip b in Some (if isdigit c then Some c else None)
    | _ => None
    end
  else Some None.

(** the table of a deletion, from the [referer] header; [None] is an
    exception *)
Definition mesa_del_of (headers : list (string * json)) : option string :=
  match lookup "referer" headers with
  | None => Some ""
  | Some r =>
      b <- py_in "mesa=" r ;;
      if b then
        s <- as_str r ;;
        match Re.search Re.regex_referer_mesa s with
        | Some (m :: _) => Some (unquote_plus m)
        | _ => Some ""
        end
      else Some ""
  end.

(** The values read at the top of the loop body (lines 58-71 of the
    source); [None] is an exception raised while reading them. *)
Record fields := {
  f_url : json;
  f_method : json;
  f_status : json;
  f_headers : list (string * json);
  f_post_data : json;
  f_body : json;
  f_horario : horario
}.

Definition read_entry (entry : json) : option fields :=
  req <- getitem entry "request" ;;
  url_v <- getitem req "url" ;;
  method <- get req "method" (JStr "") ;;
  resp <- getitem entry "response" ;;
  response_status <- getitem resp "status" ;;
  started <- get entry "startedDateTime" (JStr "") ;;
  hs_v <- get req "headers" (JArr []) ;;
  hs <- iter hs_v ;;
  headers <- header_pairs hs ;;
  pd <- get req "postData" (JObj []) ;;
  post_data <- get pd "text" (JStr "") ;;
  content <- get resp "content" (JObj []) ;;
  response_body <- get content "text" (JStr "") ;;
  let horario := horario_of started in
  Some {| f_url := url_v; f_method := method; f_status := response_status;
          f_headers := headers; f_post_data := post_data; f_body := response_body;
          f_horario := horario |}.

(** [sys.int_info.default_max_str_digits]: [int()] of a decimal string of
    more digits raises [ValueError] (CPython 3.10.7 and later) *)
Definition max_str_digits : nat := 4300.

(** [float(n)] of an [int] raises [OverflowError] from this value on: it
    rounds to 2^1024, past the largest double *)
Definition float_overflow_bound : Z := (2 ^ 1024 - 2 ^ 970)%Z.

(** step 3 (lines 108-122): the deletion, or [None] when the URL, the
    method or the post data does not match or an exception is raised *)
Definition classify_deletion (file_name : string) (f : fields) (url : string) : option event :=
  if contains "/inc/del_produtos.php" url then
    m <- as_str (f_method f) ;;
    if String.eqb (str_upper m) "POST" then
      pdata <- as_str (f_post_data f) ;;
      match Re.search Re.regex_deletado pdata with
      | Some (delete_id :: _) =>
          mesa <- mesa_del_of (f_headers f) ;;
          Some (EvDel {| d_delete_id := delete_id; d_mesa_del_ref := mesa;
                         d_horario := f_horario f; d_status := f_status f;
                         d_request := url; d_arquivo := file_name |})
      | _ => None
      end
    else None
  else None.

(** The classification (lines 73-122): the event appended, or [None] when
    no pattern matched or an exception skipped the entry. *)
Definition classify (file_name : string) (f : fields) : option event :=
  let response_status := f_status f in
  let response_body := f_body f in
  let horario := f_horario f in
  url <- as_str (f_url f) ;;
  match Re.search Re.regex_url url with
  | Some [produto_raw; mesa; quant_s] =>
      (* 1. Captura Lancamento de Produto *)
      if (max_str_digits <? String.length quant_s)%nat then None else
      let quant := int_of_digits quant_s in
      let '(produto, valor_unit) := parse_nomeprod produto_raw in
      (* quant * valor_unit converts quant to a float first *)
      if (float_overflow_bound <=? quant)%Z then None else
      let valor_total := fmul_int quant valor_unit in
      lancamento_id <- lancamento_id_of response_body ;;
      Some (EvOrder {| o_request := url; o_response := response_status;
                       o_produto := produto; o_qtde := quant; o_horario := horario;
                       o_valor_unit := valor_unit; o_valor_total := valor_total;
                       o_mesa := mesa; o_arquivo := file_name;
                       o_lancamento_id := lancamento_id |})
  | _ =>
      match Re.search Re.regex_cadastro_mesa url with
      | Some (mesa_nome :: _) =>
          if eq_200 response_status then
            (* 2. Captura Cadastro de Mesa *)
            Some (EvReg {| r_mesa := strip (unquote_plus mesa_nome);
                           r_horario_cadastro := horario; r_request := url;
                           r_response := response_status; r_arquivo := file_name |})
          else classify_deletion file_name f url
      | _ => classify_deletion file_name f url
      end
  end.

(** One iteration of the loop over [har_data["log"]["entries"]]: the event
    appended for this entry, or [None] when nothing is appended, either
    because no pattern matched or because the body raised and the
    [except Exception: continue] skipped the entry. *)
Definition process_entry (file_name : string) (entry : json) : option event :=
  obind (read_entry entry) (classify file_name).

Definition orders_of (evs : list event) : list order :=
  flat_map (fun e => match e with EvOrder o => [o] | _ => [] end) evs.
Definition regs_of (evs : list event) : list registration :=
  flat_map (fun e => match e with EvReg r => [r] | _ => [] end) evs.
Definition dels_of (evs : list event) : list deletion :=
  flat_map (fun e => match e with EvDel d => [d] | _ => [] end) evs.

(** the three lists returned by [process_har_file] *)
Definition har_lists : Type := (list order * list registration * list deletion)%type.

(** A file's text after [json.loads]: [None] is a [JSONDecodeError]. *)
Definition document : Type := option json.

(** [process_har_file(file_content, file_name)]: [inl lists] is a return,
    [inr tt] an exception raised out of the function (by
    [har_data["log"]["entries"]] or the iteration over it, which are outside
    the per-entry [try]). *)
Definition process_har_file (doc : document) (file_name : string) : har_lists + unit :=
  match doc with
  | None => inl ([], [], [])
  | Some har_data =>
      match obind (getitem har_data "log") (fun l => getitem l "entries") with
      | None => inr tt
      | Some entries_v =>
          match iter entries_v with
          | None => inr tt
          | Some entries =>
              let evs := flat_map (fun e => match process_entry file_name e with
                                            | Some ev => [ev] | None => [] end) entries in
              inl (orders_of evs, regs_of evs, dels_of evs)
          end
      end
  end.

End Extract.

(* ------------------------------------------------------------------ *)
(** ** [process_all_files] *)

Module Consolidate.
Import PyStr PyFloat Time Json Events Extract.

(** *** Uploads *)

(** A [FileStorage] of [request.files]: its [filename] ([""] when the part
    has none) and its bytes, given as [None] when [.decode('utf-8')] raises
    and otherwise by the outcome of [json.loads] on the text. *)
Record upload := {
  filename : string;
  content : option document
}.

(** [request.files.values()] on werkzeug's [MultiDict]: the first value of
    every key, keys in order of first appearance. *)
Fixpoint multidict_values_go (seen : list string) (md : list (string * upload))
  : list upload :=
  match md with
  | [] => []
  | (k, u) :: md' =>
      if existsb (String.eqb k) seen then multidict_values_go seen md'
      else u :: multidict_values_go (k :: seen) md'
  end.

Definition multidict_values (md : list (string * upload)) : list upload :=
  multidict_values_go [] md.

Definition is_safe_char (c : ascii) : bool :=
  let n := code c in
  ((65 <=? n) && (n <=? 90))%nat || ((97 <=? n) && (n <=? 122))%nat
  || is_digit c || Ascii.eqb c "_"%char || Ascii.eqb c "."%char || Ascii.eqb c "-"%char.

Fixpoint keep_chars (f : ascii -> bool) (s : string) : string :=
  match s with
  | EmptyString => EmptyString
  | String c s' => if f c then String c (keep_chars f s') else keep_chars f s'
  end.

(** ["_".join(s.split())]: runs of whitespace become one [_], leading and
    trailing whitespace disappears *)
Fixpoint join_words (s : string) (pending : bool) : string :=
  match s with
  | EmptyString => EmptyString
  | String c s' =>
      if is_space c then join_words s' true
      else (if pending then String "_"%char EmptyString else EmptyString)
           ++ String c (join_words s' false)
  end.

Fixpoint lstrip_set (f : ascii -> bool) (s : string) : string :=
  match s with
  | String c s' => if f c then lstrip_set f s' else s
  | EmptyString => EmptyString
  end.

(** [unicodedata.normalize("NFKD", c).encode("ascii", "ignore")] for the
    characters U+0080-U+00FF, in order (Unicode 14.0): letters lose their
    accents, the ordinal indicators and the superscript digits become
    letters and digits, the vulgar fractions 1/4, 1/2 and 3/4 become [14],
    [12] and [34], and the no-break space and the spacing accents become a
    space; the other characters have no ASCII decomposition. *)
Definition nfkd_ascii_latin1 : list string :=
  [
   ""; ""; ""; ""; ""; ""; ""; ""; ""; ""; ""; ""; ""; ""; ""; "";
   ""; ""; ""; ""; ""; ""; ""; ""; ""; ""; ""; ""; ""; ""; ""; "";
   " "; ""; ""; ""; ""; ""; ""; ""; " "; ""; "a"; ""; ""; ""; ""; " ";
   ""; ""; "2"; "3"; " "; ""; ""; ""; " "; "1"; "o"; ""; "14"; "12"; "34"; "";
   "A"; "A"; "A"; "A"; "A"; "A"; ""; "C"; "E"; "E"; "E"; "E"; "I"; "I"; "I"; "I";
   ""; "N"; "O"; "O"; "O"; "O"; "O"; ""; ""; "U"; "U"; "U"; "U"; "Y"; ""; "";
   "a"; "a"; "a"; "a"; "a"; "a"; ""; "c"; "e"; "e"; "e"; "e"; "i"; "i"; "i"; "i";
   ""; "n"; "o"; "o"; "o"; "o"; "o"; ""; ""; "u"; "u"; "u"; "u"; "y"; ""; "y"
  ].

Definition nfkd_ascii_char (c : ascii) : string :=
  if (code c <? 128)%nat then String c EmptyString
  else nth (code c - 128) nfkd_ascii_latin1 EmptyString.

(** [unicodedata.normalize("NFKD", s).encode("ascii", "ignore").decode("ascii")]:
    the decomposition acts character by character, and the canonical
    reordering it applies only moves combining marks, which the ASCII
    encoding drops. *)
Fixpoint nfkd_ascii (s : string) : string :=
  match s with
  | EmptyString => EmptyString
  | String c s' => nfkd_ascii_char c ++ nfkd_ascii s'
  end.

(** werkzeug's [secure_filename] on a POSIX host: NFKD normalisation and
    the ASCII encoding, [/] becomes a space, whitespace runs become [_],
    characters outside [[A-Za-z0-9_.-]] are removed and [.] and [_] are
    stripped from both ends. *)
Definition secure_filename (fn : string) : string :=
  let ascii_only := nfkd_ascii fn in
  let no_sep := replace_char "/"%char " " ascii_only in
  let joined := keep_chars is_safe_char (join_words no_sep false) in
  let dot_us c := Ascii.eqb c "."%char || Ascii.eqb c "_"%char in
  rev_str (lstrip_set dot_us (rev_str (lstrip_set dot_us joined))).

(** One iteration of the loop over the uploads: the lists the file
    contributes.  Files without a name or not ending in [.har] are passed
    over; a [UnicodeDecodeError] or any exception out of
    [process_har_file] is caught and the file is skipped. *)
Definition file_lists (u : upload) : har_lists :=
  if negb (String.eqb (filename u) "") && ends_with ".har" (filename u) then
    match content u with
    | None => ([], [], [])
    | Some doc =>
        match process_har_file doc (secure_filename (filename u)) with
        | inl r => r
        | inr _ => ([], [], [])
        end
    end
  else ([], [], []).

(** [todos_lancamentos], [todas_mesas_cad], [todos_itens_deletados] *)
Definition collect (ups : list upload) : har_lists :=
  fold_left (fun (acc : har_lists) u =>
               let '(l, c, d) := acc in
               let '(l', c', d') := file_lists u in ((l ++ l')%list, (c ++ c')%list, (d ++ d')%list))
            ups ([], [], []).

End Consolidate.

(* ------------------------------------------------------------------ *)
(** ** Consolidation and the summary views of [process_all_files] *)

Module Report.
Import PyStr PyFloat Time Json Events Extract Consolidate.

(** *** Orders: normalisation and [drop_duplicates] *)

(** the subset [["mesa", "produto", "Qtde", "request", "horario_norm"]] *)
Definition dedup_key : Type := (string * string * Z * string * option Z)%type.

Definition opt_eqb (a b : option Z) : bool :=
  match a, b with
  | Some x, Some y => Z.eqb x y
  | None, None => true   (* NaT values are duplicates of each other *)
  | _, _ => false
  end.

Definition key_eqb (k1 k2 : dedup_key) : bool :=
  let '(m1, p1, q1, r1, h1) := k1 in
  let '(m2, p2, q2, r2, h2) := k2 in
  String.eqb m1 m2 && String.eqb p1 p2 && Z.eqb q1 q2 && String.eqb r1 r2 && opt_eqb h1 h2.

(** a row of the final orders table [COLUNAS_LANCAMENTO] *)
Record order_row := {
  row_n : Z;                    (** "N" *)
  row_response : json;
  row_produto : string;
  row_qtde : Z;
  row_data : option string;     (** "Data"; [None] is NaN *)
  row_hora : option string;     (** "Hora"; [None] is NaN *)
  row_deletar : string;
  row_valor_unit : pyfloat;
  row_valor_total : pyfloat;
  row_mesa : string;
  row_arquivo : string;
  row_request : string
}.

Section Instants.

(** [inst h] is the instant in UTC that
    [pd.to_datetime(df["horario"], errors="coerce", utc=True)] gives the
    value [h] of the column ([None] is NaT); [consolidate_orders] takes it
    from [column_instant]. *)
Variable inst : horario -> option Z.

(** [horario_br], as a wall time in Sao Paulo; [None] is NaT *)
Definition horario_br (o : order) : option Z :=
  option_map to_brasilia_wall (inst (o_horario o)).

(** [horario_norm] *)
Definition horario_norm (o : order) : option Z := option_map floor_s (horario_br o).

Definition key_of (o : order) : dedup_key :=
  (o_mesa o, o_produto o, o_qtde o, o_request o, horario_norm o).

(** [drop_duplicates(subset=...)] with the default [keep="first"]: a row is
    dropped when an earlier row has the same key *)
Fixpoint drop_duplicates_go (seen : list dedup_key) (l : list order) : list order :=
  match l with
  | [] => []
  | o :: l' =>
      if existsb (key_eqb (key_of o)) seen then drop_duplicates_go seen l'
      else o :: drop_duplicates_go (key_of o :: seen) l'
  end.

Definition drop_duplicates (l : list order) : list order := drop_duplicates_go [] l.

(** a row of the table; [cast] is [df["Qtde"].astype(int)] on one value *)
Definition to_row (cast : Z -> Z) (n : Z) (o : order) : order_row :=
  {| row_n := n; row_response := o_response o; row_produto := o_produto o;
     row_qtde := cast (o_qtde o);
     row_data := option_map fmt_date (horario_br o);
     row_hora := option_map fmt_time (horario_br o);
     row_deletar := "";
     row_valor_unit := o_valor_unit o;
     (* df["valor total"] = df["Qtde"] * df["valor unitario"] *)
     row_valor_total := fmul_int (cast (o_qtde o)) (o_valor_unit o);
     row_mesa := o_mesa o; row_arquivo := o_arquivo o; row_request := o_request o |}.

Fixpoint number_rows (cast : Z -> Z) (n : Z) (l : list order) : list order_row :=
  match l with
  | [] => []
  | o :: l' => to_row cast n o :: number_rows cast (n + 1)%Z l'
  end.

End Instants.

(** the instants of the [horario] column of [pd.DataFrame(todos_lancamentos)] *)
Definition order_instants (pd_parse : list horario -> horario -> option Z)
  (lanc : list order) : horario -> option Z :=
  column_instant pd_parse (map o_horario lanc).

(** *** The [Qtde] column and [astype(int)]

    [pd.DataFrame] gives a column of Python [int]s the dtype [int64] when
    every value fits it, [uint64] when some value exceeds the [int64] range
    and none is negative or exceeds the [uint64] range, and [object]
    otherwise. *)
Inductive qtde_dtype : Type := DInt64 | DUInt64 | DObject.

Definition qtde_dtype_of (qs : list Z) : qtde_dtype :=
  if existsb (fun q => (q <? - 2 ^ 63) || (2 ^ 64 - 1 <? q)) qs then DObject
  else if existsb (fun q => 2 ^ 63 - 1 <? q) qs then
    (if existsb (fun q => q <? 0) qs then DObject else DUInt64)
  else DInt64.

(** [astype(int)] ([int64]) of one value: a [uint64] value wraps modulo
    2^64 *)
Definition astype_int64 (dt : qtde_dtype) (q : Z) : Z :=
  match dt with
  | DUInt64 => if 2 ^ 63 <=? q then q - 2 ^ 64 else q
  | _ => q
  end.

(** [astype(int)] of an [object] column raises [OverflowError] on a value
    outside the [int64] range *)
Definition astype_raises (dt : qtde_dtype) (qs : list Z) : bool :=
  match dt with
  | DObject => existsb (fun q => (q <? - 2 ^ 63) || (2 ^ 63 - 1 <? q)) qs
  | _ => false
  end.

Definition qtde_dtype_of_orders (lanc : list order) : qtde_dtype :=
  qtde_dtype_of (map o_qtde lanc).

(** the orders block of [process_all_files] (lines 176-186):
    normalisation, deduplication, [df["N"] = df.index + 1] after
    [reset_index], the [Qtde] cast and the line totals *)
Definition consolidate_orders (pd_parse : list horario -> horario -> option Z)
  (lanc : list order) : list order_row :=
  let inst := order_instants pd_parse lanc in
  number_rows inst (astype_int64 (qtde_dtype_of_orders lanc)) 1 (drop_duplicates inst lanc).

(** whether the cast of line 185 raises *)
Definition consolidate_orders_raises (pd_parse : list horario -> horario -> option Z)
  (lanc : list order) : bool :=
  astype_raises (qtde_dtype_of_orders lanc)
    (map o_qtde (drop_duplicates (order_instants pd_parse lanc) lanc)).

(** *** Registrations *)

Section RegInstants.

(** the instants of the [horario_cadastro] column *)
Variable inst : horario -> option Z.

Definition reg_wall (r : registration) : option Z :=
  option_map to_brasilia_wall (inst (r_horario_cadastro r)).

(** [sort_values(by="horario_cadastro")]: ascending, NaT last, equal
    values in their original order (numpy's quicksort is an insertion sort
    on the at most 16 rows of the cases evaluated here) *)
Fixpoint insert_asc (r : registration) (l : list registration) : list registration :=
  match l with
  | [] => [r]
  | r' :: l' =>
      match reg_wall r, reg_wall r' with
      | Some a, Some b => if (a <? b)%Z then r :: l else r' :: insert_asc r l'
      | _, _ => r' :: insert_asc r l'
      end
  end.

Definition sort_regs (l : list registration) : list registration :=
  let timed := filter (fun r => match reg_wall r with Some _ => true | None => false end) l in
  let nat_ := filter (fun r => match reg_wall r with Some _ => false | None => true end) l in
  (fold_left (fun acc r => insert_asc r acc) timed [] ++ nat_)%list.

End RegInstants.

Fixpoint drop_dup_mesa (seen : list string) (l : list registration) : list registration :=
  match l with
  | [] => []
  | r :: l' =>
      if existsb (String.eqb (r_mesa r)) seen then drop_dup_mesa seen l'
      else r :: drop_dup_mesa (r_mesa r :: seen) l'
  end.

(** the instants of the [horario_cadastro] column of [pd.DataFrame(todas_mesas_cad)] *)
Definition reg_instants (pd_parse : list horario -> horario -> option Z)
  (cad : list registration) : horario -> option Z :=
  column_instant pd_parse (map r_horario_cadastro cad).

Definition consolidate_regs (pd_parse : list horario -> horario -> option Z)
  (cad : list registration) : list registration :=
  drop_dup_mesa [] (sort_regs (reg_instants pd_parse cad) cad).

(** *** GERAL *)

Record geral_row := {
  valor_total : pyfloat;   (** "Valor total" *)
  comissao : pyfloat;      (** "Comissao 6%" *)
  taxa : pyfloat           (** "Taxa 4%" *)
}.

(** [comissao = total_valor * 0.06], [taxa = total_valor * 0.04] *)
Definition geral_of (total_valor : pyfloat) : geral_row :=
  {| valor_total := total_valor;
     comissao := fscale total_valor (6 # 100);
     taxa := fscale total_valor (4 # 100) |}.

Definition total_valor_of (rows : list order_row) : pyfloat :=
  match rows with
  | [] => PFin 0
  | _ => fsum_skipna (map row_valor_total rows)
  end.

(** *** RANKING *)

(** Python's [<] on strings: code points, lexicographically *)
Fixpoint str_ltb (a b : string) : bool :=
  match a, b with
  | EmptyString, String _ _ => true
  | String x a', String y b' =>
      if (code x <? code y)%nat then true
      else if (code x =? code y)%nat then str_ltb a' b' else false
  | _, EmptyString => false
  end.

Fixpoint insert_key (k : string) (l : list string) : list string :=
  match l with
  | [] => [k]
  | k' :: l' =>
      if String.eqb k k' then l
      else if str_ltb k k' then k :: l else k' :: insert_key k l'
  end.

(** the group keys of [groupby("mesa")], sorted *)
Definition group_keys (rows : list order_row) : list string :=
  fold_left (fun acc r => insert_key (row_mesa r) acc) rows [].

(** [groupby("mesa")["valor total"].sum().reset_index()]: one row per
    table, with its index in the grouped frame *)
Definition grouped (rows : list order_row) : list (Z * string * pyfloat) :=
  let keys := group_keys rows in
  combine (combine (map Z.of_nat (seq 0 (length keys))) keys)
    (map (fun k => fsum_skipna (map row_valor_total
                     (filter (fun r => String.eqb (row_mesa r) k) rows))) keys).

Definition g_total (g : Z * string * pyfloat) : pyfloat := snd g.

(** [sort_values(by="valor total", ascending=False)] (pandas' [nargsort]):
    descending, NaN last, equal values in their original order (numpy's
    quicksort is an insertion sort for at most 16 rows) *)
Fixpoint insert_desc (g : Z * string * pyfloat) (l : list (Z * string * pyfloat)) :=
  match l with
  | [] => [g]
  | g' :: l' => if fltb (g_total g') (g_total g) then g :: l else g' :: insert_desc g l'
  end.

Definition sort_desc (gs : list (Z * string * pyfloat)) : list (Z * string * pyfloat) :=
  (fold_left (fun acc g => insert_desc g acc) (filter (fun g => negb (is_nan (g_total g))) gs) []
   ++ filter (fun g => is_nan (g_total g)) gs)%list.

Record rank_row := {
  posicao : Z;         (** "Posicao" *)
  rank_mesa : string;  (** "mesa" *)
  rank_total : pyfloat (** "valor total" *)
}.

(** [df_ranking["Posicao"] = df_ranking.index + 1] after the sort, then
    the columns [["Posicao", "mesa", "valor total"]] *)
Definition ranking_of (rows : list order_row) : list rank_row :=
  map (fun '(i, m, t) => {| posicao := i + 1; rank_mesa := m; rank_total := t |})
      (sort_desc (grouped rows)).

(** *** The whole function *)

Record report := {
  lancamentos : list order_row;
  mesas_cad : list registration;
  itens_del : list deletion;
  geral : geral_row;
  ranking : list rank_row
}.

(** [process_all_files(files)]: [inl None] is the tuple of [None]s
    returned when nothing was extracted, [inr tt] the [OverflowError] that
    [astype(int)] raises out of the function.  [pd_parse] is pandas' parser
    of the timestamps that are not [datetime] objects (see
    [column_instant]). *)
Definition process_all_files (pd_parse : list horario -> horario -> option Z)
  (files : list (string * upload)) : option report + unit :=
  let '(todos_lancamentos, todas_mesas_cad, todos_itens_deletados) :=
    collect (multidict_values files) in
  match todos_lancamentos, todas_mesas_cad, todos_itens_deletados with
  | [], [], [] => inl None
  | _, _, _ =>
      if consolidate_orders_raises pd_parse todos_lancamentos then inr tt else
      let rows := consolidate_orders pd_parse todos_lancamentos in
      inl (Some {| lancamentos := rows;
                   mesas_cad := consolidate_regs pd_parse todas_mesas_cad;
                   itens_del := todos_itens_deletados;
                   geral := geral_of (total_valor_of rows);
                   ranking := ranking_of rows |})
  end.

End Report.

(* ------------------------------------------------------------------ *)
(** ** Concrete inputs used by the examples below *)

Module Scenarios.
Import Json Events Extract Consolidate.

(** a HAR entry of a GET request answered with status 200 *)
Definition har_entry (url ts body : string) : json :=
  JObj [("startedDateTime", JStr ts);
        ("request", JObj [("method", JStr "GET"); ("url", JStr url);
                          ("headers", JArr [])]);
        ("response", JObj [("status", JNum 200);
                           ("content", JObj [("text", JStr body)])])].

Definition har_doc (entries : list json) : json :=
  JObj [("log", JObj [("version", JStr "1.2"); ("entries", JArr entries)])].

Definition har_upload (name : string) (entries : list json) : upload :=
  {| filename := name; content := Some (Some (har_doc entries)) |}.

Definition order_url (nomeprod mesa quant : string) : string :=
  "http://pdv.local/inc/lancar.php?nomeprod=" ++ nomeprod ++ "&mesa=" ++ mesa
  ++ "&quant=" ++ quant.

Definition hamburguer_url : string :=
  order_url "Hamburguer%20R%24%2025%2C00" "Mesa01" "2".

Definition hamburguer_entry (ts : string) : json := har_entry hamburguer_url ts "4711".

(** an order whose price text "a combinar" is not a number *)
Definition unpriced_entry : json :=
  har_entry (order_url "Bolo%20R%24%20a%20combinar" "Mesa03" "1") "2024-05-01T12:00:00Z" "4712".

(** an order with quantity 0 *)
Definition zero_qty_entry : json :=
  har_entry (order_url "Brinde%20R%24%205%2C00" "Mesa04" "0") "2024-05-01T12:00:00Z" "4713".


(** the event extracted from that entry *)
Definition hamburguer_order : option event :=
  process_entry "caixa.har" (hamburguer_entry "2024-05-01T12:00:00Z").

(** the orders of that event *)
Definition hamburguer_orders : list order :=
  match hamburguer_order with Some (EvOrder o) => [o] | _ => [] end.

(** two different orders, of two tables *)
Definition menu_orders : list order :=
  flat_map (fun e => match process_entry "caixa.har" e with Some (EvOrder o) => [o] | _ => [] end)
    [hamburguer_entry "2024-05-01T12:00:00Z"; unpriced_entry].

(** two captures of the same order, in two form fields, with timestamps in
    the same second *)
Definition overlapping_uploads : list (string * upload) :=
  [("har1", har_upload "caixa_manha.har" [hamburguer_entry "2024-05-01T15:30:12.104Z"]);
   ("har2", har_upload "caixa_tarde.har" [hamburguer_entry "2024-05-01T15:30:12.877Z"])].



(** orders for 1000.00 in total *)
Definition thousand_uploads : list (string * upload) :=
  [("har1", har_upload "dia.har"
      [har_entry (order_url "Rodizio%20R%24%201.000%2C00" "Mesa07" "1")
                 "2024-05-01T15:00:00Z" ""])].

(** two files sent in one form field (an [<input type=file multiple>]):
    the first has no events, the second one order *)
Definition one_field_uploads : list (string * upload) :=
  [("files", har_upload "vazio.har" []);
   ("files", har_upload "pedidos.har" [hamburguer_entry "2024-05-01T15:30:12Z"])].


(** a file that is JSON but has no [log.entries] *)
Definition shapeless_upload : upload :=
  {| filename := "export.har"; content := Some (Some (JObj [("entries", JArr [])])) |}.

(** an upload batch in which a shapeless file precedes a good one *)
Definition shapeless_then_good : list (string * upload) :=
  [("har1", shapeless_upload);
   ("har2", har_upload "caixa.har" [hamburguer_entry "2024-05-01T15:30:12Z"])].

(** an upload whose name carries a directory part and a space *)
Definition nested_name_uploads : list (string * upload) :=
  [("har1", har_upload "../relatorios/caixa 1.har"
      [har_entry (order_url "Suco%20R%24%2010%2C00" "Mesa01" "1") "2024-05-01T15:00:00Z" ""])].

(** an upload whose name has accented letters: "../relat\243rio/caf\233 1.har"
    with o-acute (U+00F3) and e-acute (U+00E9) *)
Definition accented_name_uploads : list (string * upload) :=
  [("har1", har_upload ("../relat" ++ String (ascii_of_nat 243) "rio/caf" ++
                        String (ascii_of_nat 233) " 1.har")
      [har_entry (order_url "Suco%20R%24%2010%2C00" "Mesa01" "1") "2024-05-01T15:00:00Z" ""])].

Definition cadastro_url (mesa : string) : string :=
  "http://pdv.local/connect.php?mesa=" ++ mesa ++ "&id=1".

(** Mesa05 registered in the evening file and again, earlier, in the
    morning file; Mesa06 registered once *)
Definition double_registration_uploads : list upload :=
  [har_upload "tarde.har" [har_entry (cadastro_url "Mesa05") "2024-05-01T21:00:00Z" "";
                           har_entry (cadastro_url "Mesa06") "2024-05-01T21:05:00Z" ""];
   har_upload "manha.har" [har_entry (cadastro_url "Mesa05") "2024-05-01T12:00:00Z" ""]].


(** an item deleted from the point of sale: a lower-case [post] to
    [del_produtos.php] with the id in the form body *)
Definition delete_entry : json :=
  JObj [("startedDateTime", JStr "2024-05-01T13:00:00Z");
        ("request", JObj [("method", JStr "post");
                          ("url", JStr "http://pdv.local/inc/del_produtos.php");
                          ("headers", JArr []);
                          ("postData", JObj [("text", JStr "id=9&delete=4712")])]);
        ("response", JObj [("status", JNum 200)])].






(** a deletion posted to a URL that also matches the registration
    pattern, answered with status 500 *)
Definition cadastro_like_delete_entry : json :=
  JObj [("startedDateTime", JStr "2024-05-01T13:00:00Z");
        ("request", JObj [("method", JStr "POST");
                          ("url", JStr "http://pdv.local/inc/del_produtos.php?from=/connect.php?mesa=M1&id=1");
                          ("headers", JArr []);
                          ("postData", JObj [("text", JStr "delete=77")])]);
        ("response", JObj [("status", JNum 500)])].

(** an order whose [startedDateTime] is a number *)
Definition numeric_time_entry : json :=
  JObj [("startedDateTime", JNum 1714564800);
        ("request", JObj [("method", JStr "GET"); ("url", JStr hamburguer_url)]);
        ("response", JObj [("status", JNum 200)])].

End Scenarios.

(* ================================================================== *)
(** * Properties *)

Import PyStr Url PyFloat Nomeprod Time Json Events Extract Consolidate Report Scenarios.
Open Scope list_scope.


(** the strict order on the group keys *)
Definition key_lt (a b : string) : Prop := str_ltb a b = true.



(* ------------------------------------------------------------------ *)
(** ** Order deduplication *)

Lemma opt_eqb_spec : forall a b, opt_eqb a b = true <-> a = b.
Proof.
  intros [x|] [y|]; simpl; split; intro H; try discriminate; try reflexivity.
  - apply Z.eqb_eq in H; subst; reflexivity.
  - inversion H; apply Z.eqb_refl.
Qed.

Lemma key_eqb_spec : forall k1 k2, key_eqb k1 k2 = true <-> k1 = k2.
Proof.
  intros [[[[m1 p1] q1] r1] h1] [[[[m2 p2] q2] r2] h2]; simpl.
  rewrite !andb_true_iff, !String.eqb_eq, Z.eqb_eq, opt_eqb_spec.
  split.
  - intros [[[[-> ->] ->] ->] ->]; reflexivity.
  - intro H; inversion H; subst; tauto.
Qed.

Lemma existsb_key_In : forall k seen, existsb (key_eqb k) seen = true <-> In k seen.
Proof.
  intros k seen; rewrite existsb_exists; split.
  - intros [k' [Hin Heq]]; apply key_eqb_spec in Heq; subst; exact Hin.
  - intro Hin; exists k; split; [exact Hin | apply key_eqb_spec; reflexivity].
Qed.

Section Dedup.

Variable inst : horario -> option Z.

Lemma drop_duplicates_go_snoc : forall l seen x,
  drop_duplicates_go inst seen (l ++ [x]) =
  drop_duplicates_go inst seen l ++
    (if existsb (key_eqb (key_of inst x)) (map (key_of inst) l ++ seen) then [] else [x]).
Proof.
  induction l as [|o l IH]; intros seen x; cbn [drop_duplicates_go app map].
  - destruct (existsb (key_eqb (key_of inst x)) seen); reflexivity.
  - destruct (existsb (key_eqb (key_of inst o)) seen) eqn:Ho.
    + rewrite IH. f_equal. cbn [existsb].
      destruct (key_eqb (key_of inst x) (key_of inst o)) eqn:Hxo; [|reflexivity].
      apply key_eqb_spec in Hxo. rewrite existsb_app.
      rewrite Hxo, Ho, orb_true_r. reflexivity.
    + rewrite IH. cbn [app]. f_equal. f_equal.
      cbn [existsb]. rewrite !existsb_app. cbn [existsb].
      destruct (key_eqb (key_of inst x) (key_of inst o)), (existsb (key_eqb (key_of inst x)) (map (key_of inst) l)),
        (existsb (key_eqb (key_of inst x)) seen); reflexivity.
Qed.

Lemma drop_duplicates_go_In : forall l seen o,
  In o (drop_duplicates_go inst seen l) -> In o l /\ ~ In (key_of inst o) seen.
Proof.
  induction l as [|o' l IH]; intros seen o H; simpl in H; [contradiction|].
  destruct (existsb (key_eqb (key_of inst o')) seen) eqn:Ho.
  - apply IH in H as [H1 H2]; split; [right; exact H1 | exact H2].
  - destruct H as [<-|H].
    + split; [left; reflexivity|]. intro Hin. apply existsb_key_In in Hin. congruence.
    + apply IH in H as [H1 H2]. split; [right; exact H1|]. intro Hin; apply H2; right; exact Hin.
Qed.

Lemma drop_duplicates_go_NoDup : forall l seen, NoDup (map (key_of inst) (drop_duplicates_go inst seen l)).
Proof.
  induction l as [|o l IH]; intros seen; simpl; [constructor|].
  destruct (existsb (key_eqb (key_of inst o)) seen); [apply IH|].
  simpl; constructor; [|apply IH].
  intro Hin. apply in_map_iff in Hin as [o' [Hk Hin]].
  apply drop_duplicates_go_In in Hin as [_ Hn]. apply Hn. rewrite Hk. left; reflexivity.
Qed.

Lemma drop_duplicates_go_id : forall l seen,
  NoDup (map (key_of inst) l) -> (forall o, In o l -> ~ In (key_of inst o) seen) ->
  drop_duplicates_go inst seen l = l.
Proof.
  induction l as [|o l IH]; intros seen Hnd Hseen; simpl; [reflexivity|].
  inversion Hnd as [|k ks Hk Hnd']; subst.
  destruct (existsb (key_eqb (key_of inst o)) seen) eqn:Ho.
  - apply existsb_key_In in Ho. exfalso. exact (Hseen o (or_introl eq_refl) Ho).
  - f_equal. apply IH; [exact Hnd'|].
    intros o' Hin [Heq|Hin'].
    + apply Hk. rewrite Heq. apply in_map. exact Hin.
    + exact (Hseen o' (or_intror Hin) Hin').
Qed.

Lemma existsb_key_map : forall l x,
  existsb (key_eqb (key_of inst x)) (map (key_of inst) l) =
  existsb (fun y => key_eqb (key_of inst y) (key_of inst x)) l.
Proof.
  induction l as [|y l IH]; intro x; cbn [existsb map]; [reflexivity|].
  rewrite IH. f_equal.
  destruct (key_eqb (key_of inst x) (key_of inst y)) eqn:H1;
    destruct (key_eqb (key_of inst y) (key_of inst x)) eqn:H2; try reflexivity.
  - apply key_eqb_spec in H1. rewrite H1, (proj2 (key_eqb_spec _ _) eq_refl) in H2.
    discriminate.
  - apply key_eqb_spec in H2. rewrite H2, (proj2 (key_eqb_spec _ _) eq_refl) in H1.
    discriminate.
Qed.

Lemma drop_duplicates_In : forall l o, In o (drop_duplicates inst l) -> In o l.
Proof. intros l o H. exact (proj1 (drop_duplicates_go_In l [] o H)). Qed.

End Dedup.

(** C2. Two orders are the same event exactly when they agree on the table,
    the product, the quantity, the URL and the second-truncated Sao Paulo
    instant; appending an order to a list keeps it after the survivors of
    the list when, and only when, no earlier order is the same event (so the
    first occurrence is kept and the survivors keep their order); and two
    uploaded files holding the same order, timed within the same second,
    give one consolidated order. The first two parts hold whatever
    instants pandas gives the timestamps, the last one whatever pandas'
    own parser does with values other than [datetime]s. *)
Theorem C2_dedup_keeps_first_occurrence :
  (forall (inst : horario -> option Z) (a b : order),
     key_eqb (key_of inst a) (key_of inst b) = true <->
     o_mesa a = o_mesa b /\ o_produto a = o_produto b /\ o_qtde a = o_qtde b /\
     o_request a = o_request b /\ horario_norm inst a = horario_norm inst b)
  /\ (forall (inst : horario -> option Z) (l : list order) (x : order),
        drop_duplicates inst (l ++ [x]) =
        drop_duplicates inst l ++
          (if existsb (fun y => key_eqb (key_of inst y) (key_of inst x)) l then [] else [x]))
  /\ (forall pd_parse, exists r,
        process_all_files pd_parse overlapping_uploads = inl (Some r) /\
        length (lancamentos r) = 1%nat).
Proof.
  split; [|split].
  - intros inst a b. rewrite key_eqb_spec. unfold key_of. split.
    + intro H; inversion H; tauto.
    + intros (H1 & H2 & H3 & H4 & H5); rewrite H1, H2, H3, H4, H5; reflexivity.
  - intros inst l x. unfold drop_duplicates. rewrite drop_duplicates_go_snoc.
    rewrite (app_nil_r (map (key_of inst) l)), existsb_key_map. reflexivity.
  - intro pd_parse. eexists. split; [vm_compute; reflexivity|]. reflexivity.
Qed.

(** C9. Deduplication is idempotent: deduplicating an already deduplicated
    list changes nothing, and a list in which no two orders are the same
    event is left as it is, whatever instants pandas gives the timestamps. *)
Theorem C9_dedup_idempotent :
  forall (inst : horario -> option Z) (l : list order),
    drop_duplicates inst (drop_duplicates inst l) = drop_duplicates inst l /\
    (NoDup (map (key_of inst) l) -> drop_duplicates inst l = l).
Proof.
  intros inst l. split.
  - apply drop_duplicates_go_id; [apply drop_duplicates_go_NoDup|]. intros o _ [].
  - intro H. apply drop_duplicates_go_id; [exact H|]. intros o _ [].
Qed.

(* ------------------------------------------------------------------ *)
(** ** [parse_nomeprod] and [str.split("R$")] *)

Lemma contains_after_prefix : forall w b t,
  starts_with w t = true -> contains w (b ++ t)%string = true.
Proof.
  intros w b t H. induction b as [|c b IH]; simpl.
  - destruct t; simpl in *; rewrite H; reflexivity.
  - rewrite IH, orb_true_r. reflexivity.
Qed.

Lemma contains_cons : forall w c b,
  contains w (String c b) = starts_with w (String c b) || contains w b.
Proof. reflexivity. Qed.

(** no occurrence of [R$] starts inside [b] when [b] has none and what
    follows [b] is empty or starts with [R$] *)
Lemma no_marker_start : forall c b t,
  contains "R$" (String c b) = false -> (t = EmptyString \/ starts_with "R$" t = true) ->
  starts_with "R$" (String c (b ++ t)) = false.
Proof.
  intros c b t Hc Ht. rewrite contains_cons in Hc. apply orb_false_iff in Hc as [Hc _].
  cbn [starts_with] in Hc |- *.
  destruct (Ascii.eqb "R"%char c) eqn:Ec; [|reflexivity].
  rewrite andb_true_l in Hc |- *. destruct b as [|d b'].
  - destruct Ht as [->|Ht]; [reflexivity|].
    destruct t as [|a t']; [discriminate|].
    cbn [starts_with String.append] in Ht |- *. apply andb_true_iff in Ht as [Ha _].
    apply Ascii.eqb_eq in Ha; subst a. reflexivity.
  - cbn [starts_with String.append] in Hc |- *.
    destruct (Ascii.eqb "$"%char d); [|reflexivity]. discriminate.
Qed.

Lemma split_go_scan : forall b t cur,
  contains "R$" b = false -> (t = EmptyString \/ starts_with "R$" t = true) ->
  split_go "R$" (b ++ t)%string O cur =
  split_go "R$" t O (string_of_list_ascii (rev (list_ascii_of_string b) ++ list_ascii_of_string cur)).
Proof.
  induction b as [|c b IH]; intros t cur Hb Ht.
  - simpl. rewrite string_of_list_ascii_of_string. reflexivity.
  - change ((String c b ++ t)%string) with (String c (b ++ t)%string).
    cbn [split_go]. rewrite (no_marker_start c b t Hb Ht).
    rewrite contains_cons in Hb. apply orb_false_iff in Hb as [_ Hb].
    rewrite IH by assumption. cbn [list_ascii_of_string rev].
    rewrite <- app_assoc. reflexivity.
Qed.

Lemma split_go_hit : forall c s cur,
  starts_with "R$" (String c s) = true ->
  split_go "R$" (String c s) O cur = rev_str cur :: split_go "R$" s 1 EmptyString.
Proof. intros c s cur H. cbn [split_go]. rewrite H. reflexivity. Qed.

Lemma rev_str_scanned : forall m,
  rev_str (string_of_list_ascii (rev (list_ascii_of_string m) ++ list_ascii_of_string EmptyString)) = m.
Proof.
  intro m. unfold rev_str. rewrite list_ascii_of_string_of_list_ascii. simpl.
  rewrite app_nil_r, rev_involutive, string_of_list_ascii_of_string. reflexivity.
Qed.

Lemma split_marker : forall b m r,
  contains "R$" b = false -> contains "R$" m = false ->
  (r = EmptyString \/ starts_with "R$" r = true) ->
  exists rest, split "R$" (b ++ "R$" ++ m ++ r)%string = b :: m :: rest.
Proof.
  intros b m r Hb Hm Hr. unfold split.
  rewrite split_go_scan by (assumption || (right; reflexivity)).
  change ("R$" ++ m ++ r)%string with (String "R" (String "$" (m ++ r)%string)).
  rewrite split_go_hit by reflexivity.
  cbn [split_go]. rewrite (split_go_scan m r EmptyString Hm Hr).
  destruct Hr as [->|Hr].
  - exists []. cbn [split_go]. rewrite !rev_str_scanned. reflexivity.
  - destruct r as [|a r']; [discriminate|].
    rewrite split_go_hit by exact Hr. rewrite !rev_str_scanned.
    eexists. reflexivity.
Qed.

Lemma parse_nomeprod_marker : forall s b m r,
  unquote_plus s = (b ++ "R$" ++ m ++ r)%string ->
  contains "R$" b = false -> contains "R$" m = false ->
  (r = EmptyString \/ starts_with "R$" r = true) ->
  parse_nomeprod s =
    match py_float (clean_price m) with
    | Some p => (strip b, p)
    | None => (s, PFin 0)
    end.
Proof.
  intros s b m r Hu Hb Hm Hr.
  unfold parse_nomeprod, parse_nomeprod_try. rewrite Hu.
  rewrite contains_after_prefix by reflexivity.
  destruct (split_marker b m r Hb Hm Hr) as [rest ->]. cbn [nth nth_error].
  destruct (py_float (clean_price m)); reflexivity.
Qed.

Lemma parse_nomeprod_no_marker : forall s,
  contains "R$" (unquote_plus s) = false ->
  parse_nomeprod s = (strip (unquote_plus s), PFin 0).
Proof.
  intros s H. unfold parse_nomeprod, parse_nomeprod_try. rewrite H. reflexivity.
Qed.

Lemma hamburguer_order_fields : exists o,
  hamburguer_order = Some (EvOrder o) /\
  o_produto o = "Hamburguer" /\ o_mesa o = "Mesa01" /\ o_qtde o = 2%Z /\
  feqb (o_valor_unit o) (PFin 25) = true /\ feqb (o_valor_total o) (PFin 50) = true.
Proof.
  vm_compute. eexists. split; [reflexivity|].
  repeat split; reflexivity.
Qed.


(** C1 (counterexample): the product field [X%20R%24abc] decodes to
    [X R$abc], whose text before the marker trims to [X]; the price text
    [abc] is not a number, and the product name returned is the raw,
    still-encoded field, not [X]. *)
Lemma C1_counterexample :
  strip (nth 0 (split "R$" (unquote_plus "X%20R%24abc")) EmptyString) = "X" /\
  parse_nomeprod "X%20R%24abc" = ("X%20R%24abc", PFin 0).
Proof. vm_compute. split; reflexivity. Qed.

(** C1 (amended): write the decoded field as [b ++ "R$" ++ m ++ r] where
    [b] and [m] hold no [R$] and [r] is empty or starts with the next [R$]
    (the code splits on every occurrence and reads the price from the piece
    between the first and the second). When [m], with dots removed, commas
    turned into dots and spaces removed, parses as a float [p], the result
    is the trimmed [b] with price [p]; otherwise it is the raw field with
    price 0. Without [R$] the result is the trimmed decoded field with price
    0. The Hamburguer order yields product "Hamburguer", table Mesa01,
    quantity 2, unit price 25 and line total 50. *)
Theorem C1_parse_nomeprod_first_marker :
  (forall s b m r,
     unquote_plus s = (b ++ "R$" ++ m ++ r)%string ->
     contains "R$" b = false -> contains "R$" m = false ->
     (r = EmptyString \/ starts_with "R$" r = true) ->
     parse_nomeprod s =
       match py_float (clean_price m) with
       | Some p => (strip b, p)
       | None => (s, PFin 0)
       end) /\
  (forall s, contains "R$" (unquote_plus s) = false ->
     parse_nomeprod s = (strip (unquote_plus s), PFin 0)) /\
  (exists o, hamburguer_order = Some (EvOrder o) /\
     o_produto o = "Hamburguer" /\ o_mesa o = "Mesa01" /\ o_qtde o = 2%Z /\
     feqb (o_valor_unit o) (PFin 25) = true /\ feqb (o_valor_total o) (PFin 50) = true).
Proof.
  split; [exact parse_nomeprod_marker|].
  split; [exact parse_nomeprod_no_marker|exact hamburguer_order_fields].
Qed.

Lemma C1_witness :
  parse_nomeprod "Hamburguer%20R%24%2025%2C00" = ("Hamburguer", PFin (2500 # 100)) /\
  parse_nomeprod "Pastel+de+queijo" = ("Pastel de queijo", PFin 0).
Proof.
  split.
  - rewrite ((proj1 C1_parse_nomeprod_first_marker) "Hamburguer%20R%24%2025%2C00"
               "Hamburguer " " 25,00" EmptyString);
      [ vm_compute; reflexivity | vm_compute; reflexivity | vm_compute; reflexivity
      | vm_compute; reflexivity | left; reflexivity ].
  - rewrite ((proj1 (proj2 C1_parse_nomeprod_first_marker)) "Pastel+de+queijo");
      vm_compute; reflexivity.
Defined.




Lemma C9_witness :
  length menu_orders = 2%nat /\
  drop_duplicates (order_instants (fun _ _ => None) menu_orders)
    (drop_duplicates (order_instants (fun _ _ => None) menu_orders) (menu_orders ++ menu_orders)) =
  drop_duplicates (order_instants (fun _ _ => None) menu_orders) (menu_orders ++ menu_orders) /\
  drop_duplicates (order_instants (fun _ _ => None) menu_orders) menu_orders = menu_orders.
Proof.
  split; [reflexivity|split].
  - exact (proj1 (C9_dedup_idempotent _ (menu_orders ++ menu_orders))).
  - apply (proj2 (C9_dedup_idempotent _ menu_orders)).
    vm_compute. apply NoDup_cons; [intros [H|[]]; discriminate H|].
    apply NoDup_cons; [intros []|apply NoDup_nil].
Defined.

(* ------------------------------------------------------------------ *)
(** ** The GERAL table *)

Lemma process_all_files_Some : forall pd files r,
  process_all_files pd files = inl (Some r) ->
  exists lanc cad del,
    collect (multidict_values files) = (lanc, cad, del) /\
    (lanc, cad, del) <> ([], [], []) /\
    consolidate_orders_raises pd lanc = false /\
    r = {| lancamentos := consolidate_orders pd lanc;
           mesas_cad := consolidate_regs pd cad;
           itens_del := del;
           geral := geral_of (total_valor_of (consolidate_orders pd lanc));
           ranking := ranking_of (consolidate_orders pd lanc) |}.
Proof.
  intros pd files r H. unfold process_all_files in H.
  destruct (collect (multidict_values files)) as [[lanc cad] del].
  exists lanc, cad, del. split; [reflexivity|].
  destruct (consolidate_orders_raises pd lanc) eqn:Hr.
  - destruct lanc, cad, del; discriminate H.
  - destruct lanc, cad, del; try discriminate H; injection H as <-;
      (split; [discriminate|split; reflexivity]).
Qed.

(** C4 (counterexample): the upload of one "Rodizio R$ 1.000,00" order
    has total value 1000 and a commission of 60, not 200. *)
Lemma C4_counterexample : exists r,
  process_all_files (fun _ _ => None) thousand_uploads = inl (Some r) /\
  feqb (valor_total (geral r)) (PFin 1000) = true /\
  feqb (comissao (geral r)) (PFin 200) = false.
Proof. eexists. split; [vm_compute; reflexivity|]. split; reflexivity. Qed.

(** C4 (amended): every report has commission = total value * 0.06 and
    fee = total value * 0.04, fixed constants with no offset, the total
    value being the sum of the line totals of the consolidated orders;
    for a total value of 1000 the commission is 60 and the fee 40. *)
Theorem C4_fixed_commission_and_fee :
  (forall pd_parse files r, process_all_files pd_parse files = inl (Some r) ->
     valor_total (geral r) = total_valor_of (lancamentos r) /\
     comissao (geral r) = fscale (total_valor_of (lancamentos r)) (6 # 100) /\
     taxa (geral r) = fscale (total_valor_of (lancamentos r)) (4 # 100)) /\
  (forall pd_parse, exists r,
     process_all_files pd_parse thousand_uploads = inl (Some r) /\
     feqb (valor_total (geral r)) (PFin 1000) = true /\
     feqb (comissao (geral r)) (PFin 60) = true /\
     feqb (taxa (geral r)) (PFin 40) = true).
Proof.
  split.
  - intros pd files r H. destruct (process_all_files_Some pd files r H) as (l & c & d & _ & _ & _ & ->).
    repeat split.
  - intro pd_parse. eexists. split; [vm_compute; reflexivity|]. repeat split.
Qed.

Lemma C4_witness : exists r,
  process_all_files (fun _ _ => None) thousand_uploads = inl (Some r) /\
  comissao (geral r) = fscale (total_valor_of (lancamentos r)) (6 # 100) /\
  taxa (geral r) = fscale (total_valor_of (lancamentos r)) (4 # 100).
Proof.
  eexists. split; [reflexivity|].
  apply (proj1 C4_fixed_commission_and_fee (fun _ _ => None) thousand_uploads).
  vm_compute. reflexivity.
Defined.

(* ------------------------------------------------------------------ *)
(** ** The "no data" outcome *)

Lemma process_all_files_None : forall pd files,
  process_all_files pd files = inl None <-> collect (multidict_values files) = ([], [], []).
Proof.
  intros pd files. unfold process_all_files.
  destruct (collect (multidict_values files)) as [[l c] d].
  destruct (consolidate_orders_raises pd l);
    destruct l, c, d; split; intro H; solve [reflexivity | discriminate H].
Qed.

(** C7: [process_all_files] returns the tuple of [None]s exactly when the
    uploads that [files.values()] yields contribute no order, no
    registration and no deletion. [values()] of werkzeug's [MultiDict]
    yields only the first file of every form field, so two [.har] files
    sent under the field "files", the first without events and the second
    with one order, give the "no data" outcome, although the loop is meant
    to process every uploaded file and the second file holds one order. *)
Theorem C7_no_data_drops_second_file :
  (forall pd_parse files, process_all_files pd_parse files = inl None <->
                 collect (multidict_values files) = ([], [], [])) /\
  (forall pd_parse, process_all_files pd_parse one_field_uploads = inl None) /\
  length (fst (fst (collect (map snd one_field_uploads)))) = 1%nat.
Proof.
  split; [exact process_all_files_None|].
  split; [intro pd_parse; vm_compute; reflexivity | vm_compute; reflexivity].
Qed.

(* ------------------------------------------------------------------ *)
(** ** Documents that cannot be read *)

Lemma collect_skip : forall prev u us,
  file_lists u = ([], [], []) -> collect (prev ++ u :: us) = collect (prev ++ us).
Proof.
  intros prev u us H. unfold collect. rewrite !fold_left_app. cbn [fold_left].
  match goal with |- context [fold_left ?f prev ?i] => destruct (fold_left f prev i) as [[l c] d] end.
  rewrite H, !app_nil_r. reflexivity.
Qed.

Lemma file_lists_raises : forall u j,
  content u = Some (Some j) ->
  obind (getitem j "log") (fun l => getitem l "entries") = None ->
  file_lists u = ([], [], []).
Proof.
  intros u j Hc Hs. unfold file_lists. rewrite Hc. unfold process_har_file. rewrite Hs.
  destruct (negb _ && _); reflexivity.
Qed.

Lemma file_lists_not_json : forall u,
  content u = Some None -> file_lists u = ([], [], []).
Proof.
  intros u Hc. unfold file_lists. rewrite Hc. cbn [process_har_file].
  destruct (negb _ && _); reflexivity.
Qed.

(** C6 (counterexample): a JSON document without [log] makes
    [process_har_file] raise instead of returning three empty lists. *)
Lemma C6_counterexample :
  process_har_file (Some (JObj [("entries", JArr [])])) "export.har" = inr tt.
Proof. reflexivity. Qed.

(** C6 (amended): [process_har_file] returns three empty lists for a
    document that is not JSON and raises for a JSON document without
    [log.entries]; in both cases [process_all_files] catches the outcome,
    the file contributes no event, and the batch goes on as if the file
    were absent: a shapeless file followed by a file with one order yields
    that order. *)
Theorem C6_unreadable_document_skipped :
  (forall fn, process_har_file None fn = inl ([], [], [])) /\
  (forall j fn, obind (getitem j "log") (fun l => getitem l "entries") = None ->
     process_har_file (Some j) fn = inr tt) /\
  (forall prev u us, content u = Some None ->
     collect (prev ++ u :: us) = collect (prev ++ us)) /\
  (forall prev u us j, content u = Some (Some j) ->
     obind (getitem j "log") (fun l => getitem l "entries") = None ->
     collect (prev ++ u :: us) = collect (prev ++ us)) /\
  (forall pd_parse, exists r,
     process_all_files pd_parse shapeless_then_good = inl (Some r) /\
     length (lancamentos r) = 1%nat).
Proof.
  split; [reflexivity|]. split.
  - intros j fn H. unfold process_har_file. rewrite H. reflexivity.
  - split; [|split].
    + intros prev u us Hc. apply collect_skip, file_lists_not_json, Hc.
    + intros prev u us j Hc Hs. apply collect_skip. exact (file_lists_raises u j Hc Hs).
    + intro pd_parse. eexists. split; [vm_compute; reflexivity|]. reflexivity.
Qed.

Lemma C6_witness :
  process_har_file (Some (JObj [("entries", JArr [])])) "export.har" = inr tt /\
  collect ([] ++ shapeless_upload :: [har_upload "caixa.har" [hamburguer_entry "2024-05-01T15:30:12Z"]])
  = collect ([] ++ [har_upload "caixa.har" [hamburguer_entry "2024-05-01T15:30:12Z"]]) /\
  collect ([] ++ {| filename := "quebrado.har"; content := Some None |} :: [])
  = collect ([] ++ []).
Proof.
  split; [|split].
  - apply (proj1 (proj2 C6_unreadable_document_skipped)). reflexivity.
  - apply (proj1 (proj2 (proj2 (proj2 C6_unreadable_document_skipped))))
      with (j := JObj [("entries", JArr [])]); reflexivity.
  - apply (proj1 (proj2 (proj2 C6_unreadable_document_skipped))). reflexivity.
Defined.

(* ------------------------------------------------------------------ *)
(** ** Quantities and line totals *)





Lemma orders_of_In : forall evs o, In o (orders_of evs) -> In (EvOrder o) evs.
Proof.
  induction evs as [|ev evs IH]; intros o H; [contradiction|].
  destruct ev; simpl in H |- *; try (right; apply IH, H).
  destruct H as [<-|H]; [left; reflexivity|right; apply IH, H].
Qed.


Lemma collect_orders_go : forall ups (acc : har_lists) o,
  In o (fst (fst (fold_left (fun (acc : har_lists) u =>
               let '(l, c, d) := acc in
               let '(l', c', d') := file_lists u in ((l ++ l')%list, (c ++ c')%list, (d ++ d')%list))
            ups acc))) ->
  In o (fst (fst acc)) \/ exists u, In u ups /\ In o (fst (fst (file_lists u))).
Proof.
  induction ups as [|u ups IH]; intros acc o H; [left; exact H|].
  cbn [fold_left] in H. apply IH in H as [H|(u' & Hu' & Ho)].
  - destruct acc as [[l c] d]. destruct (file_lists u) as [[l' c'] d'] eqn:Ef.
    cbn in H. apply in_app_or in H as [H|H]; [left; exact H|].
    right. exists u. split; [left; reflexivity|]. rewrite Ef. exact H.
  - right. exists u'. split; [right; exact Hu'|exact Ho].
Qed.


Lemma number_rows_In : forall inst cast l n row,
  In row (number_rows inst cast n l) -> exists k o, In o l /\ row = to_row inst cast k o.
Proof.
  intros inst cast. induction l as [|o l IH]; intros n row H; [contradiction|].
  destruct H as [<-|H].
  - exists n, o. split; [left|]; reflexivity.
  - apply IH in H as (k & o' & Ho & ->). exists k, o'. split; [right|]; auto.
Qed.

Lemma process_all_files_rows : forall pd files r row,
  process_all_files pd files = inl (Some r) -> In row (lancamentos r) ->
  exists o k, In o (fst (fst (collect (multidict_values files)))) /\
    In o (drop_duplicates (order_instants pd (fst (fst (collect (multidict_values files)))))
                          (fst (fst (collect (multidict_values files))))) /\
    row = to_row (order_instants pd (fst (fst (collect (multidict_values files)))))
            (astype_int64 (qtde_dtype_of_orders (fst (fst (collect (multidict_values files))))))
            k o.
Proof.
  intros pd files r row H Hrow.
  destruct (process_all_files_Some pd files r H) as (l & c & d & Hc & _ & _ & ->).
  rewrite Hc. cbn [fst lancamentos] in *. unfold consolidate_orders in Hrow.
  apply number_rows_In in Hrow as (k & o & Ho & ->).
  exists o, k. split; [apply drop_duplicates_In in Ho; exact Ho|]. split; [exact Ho|reflexivity].
Qed.





(* ------------------------------------------------------------------ *)
(** ** Timestamps in Sao Paulo *)



















(* ------------------------------------------------------------------ *)
(** ** The RANKING table *)


Lemma insert_desc_perm : forall g l, Permutation (insert_desc g l) (g :: l).
Proof.
  intros g l. induction l as [|g' l IH]; simpl; [reflexivity|].
  destruct (fltb (g_total g') (g_total g)); [reflexivity|].
  eapply perm_trans; [apply perm_skip, IH|apply perm_swap].
Qed.



Lemma fold_insert_perm : forall l acc,
  Permutation (fold_left (fun acc g => insert_desc g acc) l acc) (l ++ acc).
Proof.
  induction l as [|g l IH]; intro acc; simpl; [reflexivity|].
  rewrite IH, insert_desc_perm. apply Permutation_sym, Permutation_middle.
Qed.


Lemma filter_split_perm : forall {A} (f : A -> bool) l,
  Permutation (filter (fun x => negb (f x)) l ++ filter f l) l.
Proof.
  intros A f l. induction l as [|a l IH]; simpl; [reflexivity|].
  destruct (f a); simpl.
  - eapply perm_trans; [apply Permutation_sym, Permutation_middle|]. apply perm_skip, IH.
  - apply perm_skip, IH.
Qed.


Lemma sort_desc_perm : forall gs, Permutation (sort_desc gs) gs.
Proof.
  intro gs. unfold sort_desc. rewrite fold_insert_perm, app_nil_r.
  exact (filter_split_perm (fun g => is_nan (g_total g)) gs).
Qed.


Ltac nat_cases :=
  repeat match goal with
  | H : context [(?a <? ?b)%nat] |- _ => destruct (Nat.ltb_spec a b)
  | H : context [(?a =? ?b)%nat] |- _ => destruct (Nat.eqb_spec a b)
  | |- context [(?a <? ?b)%nat] => destruct (Nat.ltb_spec a b)
  | |- context [(?a =? ?b)%nat] => destruct (Nat.eqb_spec a b)
  end.

Lemma code_inj : forall x y, code x = code y -> x = y.
Proof.
  intros x y H. rewrite <- (ascii_nat_embedding x), <- (ascii_nat_embedding y).
  unfold code in H. rewrite H. reflexivity.
Qed.


Lemma str_ltb_trans : forall a b c,
  str_ltb a b = true -> str_ltb b c = true -> str_ltb a c = true.
Proof.
  induction a as [|x a IH]; intros [|y b] [|z c] H1 H2; simpl in *;
    try discriminate; try reflexivity.
  nat_cases; try lia; try discriminate; try reflexivity. eauto.
Qed.

Lemma str_ltb_total : forall a b,
  a <> b -> str_ltb a b = false -> str_ltb b a = true.
Proof.
  induction a as [|x a IH]; intros [|y b] Hne H; simpl in *;
    try discriminate; try reflexivity; try (exfalso; apply Hne; reflexivity).
  nat_cases; try lia; try discriminate; try reflexivity.
  apply IH; [|exact H]. intros ->. apply Hne. f_equal. apply code_inj. lia.
Qed.

Lemma insert_key_In : forall k l x, In x (insert_key k l) <-> x = k \/ In x l.
Proof.
  intros k l x. induction l as [|k' l IH]; simpl; [intuition congruence|].
  destruct (String.eqb_spec k k') as [->|_]; simpl; [intuition congruence|].
  destruct (str_ltb k k'); simpl; [intuition congruence|]. rewrite IH. intuition congruence.
Qed.

Lemma insert_key_sorted : forall k l,
  StronglySorted key_lt l -> StronglySorted key_lt (insert_key k l).
Proof.
  intros k l. induction l as [|k' l IH]; intro H; simpl; [repeat constructor|].
  destruct (String.eqb_spec k k') as [->|Hne]; [exact H|].
  apply StronglySorted_inv in H as [Hs Hf].
  destruct (str_ltb k k') eqn:E.
  - constructor; [constructor; assumption|]. constructor; [exact E|].
    eapply Forall_impl; [|exact Hf]. intros x Hx. exact (str_ltb_trans _ _ _ E Hx).
  - constructor; [apply IH, Hs|]. apply Forall_forall. intros x Hx.
    apply insert_key_In in Hx as [->|Hx].
    + apply str_ltb_total; [exact Hne|exact E].
    + rewrite Forall_forall in Hf. apply Hf, Hx.
Qed.


Lemma group_keys_go : forall rows acc,
  StronglySorted key_lt acc ->
  StronglySorted key_lt (fold_left (fun acc r => insert_key (row_mesa r) acc) rows acc) /\
  (forall k, In k (fold_left (fun acc r => insert_key (row_mesa r) acc) rows acc) <->
             In k acc \/ exists r, In r rows /\ row_mesa r = k).
Proof.
  induction rows as [|r rows IH]; intros acc H; simpl.
  - split; [exact H|]. intro k. split; [tauto|]. intros [Hk|(r & [] & _)]. exact Hk.
  - destruct (IH (insert_key (row_mesa r) acc) (insert_key_sorted _ _ H)) as [Hs Hi].
    split; [exact Hs|]. intro k. rewrite Hi, insert_key_In. split.
    + intros [[->|Hk]|(r' & Hr' & Hk)]; [right; exists r; auto|left; exact Hk|].
      right; exists r'; auto.
    + intros [Hk|(r' & [->|Hr'] & Hk)]; [left; right; exact Hk|left; left; auto|].
      right; exists r'; auto.
Qed.

























(* ================================================================== *)
(** * Further properties of the code *)

(* ------------------------------------------------------------------ *)
(** ** What the patterns capture *)

Lemma first_some_In : forall {A B} (f : A -> option B) l y,
  Re.first_some f l = Some y -> exists x, In x l /\ f x = Some y.
Proof.
  intros A B f l y. induction l as [|x l IH]; simpl; [discriminate|].
  destruct (f x) eqn:E; intro H.
  - injection H as <-. exists x. auto.
  - destruct (IH H) as (x' & Hx & Hf). exists x'. auto.
Qed.

Lemma run_len_prefix : forall k s len,
  (len <= Re.run_len k s)%nat -> Re.all_cls k (substring 0 len s) = true.
Proof.
  intros k s. induction s as [|c s IH]; intros [|len] H; simpl in *; try reflexivity.
  destruct (Re.cls_match k c); [|lia]. rewrite IH by lia. reflexivity.
Qed.

Lemma run_len_le_length : forall k s, (Re.run_len k s <= String.length s)%nat.
Proof.
  intros k s. induction s as [|c s IH]; simpl; [lia|].
  destruct (Re.cls_match k c); lia.
Qed.

Lemma match_at_caps : forall ps s caps,
  Re.match_at ps s = Some caps ->
  Forall2 (fun kp c => Re.all_cls (fst kp) c = true /\ (snd kp = true -> c <> EmptyString))
    (Re.cap_specs ps) caps.
Proof.
  induction ps as [|[ci w|k plus greedy cap] ps IH]; intros s caps H; simpl in H |- *.
  - injection H as <-. constructor.
  - destruct (Re.eat_lit ci w s); [apply (IH _ _ H)|discriminate].
  - apply first_some_In in H as (len & Hlen & Hf).
    destruct (Re.match_at ps _) as [caps'|] eqn:Em; [|discriminate]. injection Hf as <-.
    assert (Hb : ((if plus then 1 else 0) <= len <= Re.run_len k s)%nat).
    { destruct greedy; [apply in_rev in Hlen|]; apply in_seq in Hlen; destruct plus; lia. }
    pose proof (run_len_le_length k s).
    destruct cap; [|exact (IH _ _ Em)].
    constructor; [|exact (IH _ _ Em)]. cbn [fst snd]. split.
    + apply run_len_prefix. lia.
    + intros ->. destruct s as [|c s]; simpl in *; [lia|]. destruct len; [lia|]. cbn. discriminate.
Qed.

Lemma search_match_at : forall ps s caps,
  Re.search ps s = Some caps -> exists s', Re.match_at ps s' = Some caps.
Proof.
  intros ps s caps. induction s as [|c s IH]; intro H; simpl in H;
    destruct (Re.match_at ps _) eqn:E.
  - injection H as <-. eauto.
  - discriminate H.
  - injection H as <-. eauto.
  - exact (IH H).
Qed.

Lemma all_cls_notamp : forall s,
  Re.all_cls Re.NotAmp s = true -> ~ In "&"%char (list_ascii_of_string s).
Proof.
  induction s as [|c s IH]; simpl; [tauto|]. intros H [->|Hin].
  - discriminate H.
  - apply andb_true_iff in H as [_ H]. exact (IH H Hin).
Qed.

Lemma all_cls_digit : forall s, Re.all_cls Re.Digit s = all_digits s.
Proof. induction s as [|c s IH]; simpl; [reflexivity|]. rewrite IH. reflexivity. Qed.

Lemma search_regex_url : forall url caps,
  Re.search Re.regex_url url = Some caps ->
  exists p m q, caps = [p; m; q] /\ p <> EmptyString /\
    m <> EmptyString /\ ~ In "&"%char (list_ascii_of_string m) /\ isdigit q = true.
Proof.
  intros url caps H. apply search_match_at in H as [s' H]. apply match_at_caps in H.
  cbn in H. inversion H as [|kp p l1 l2 [_ Hp] H1]; subst.
  inversion H1 as [|kp' m l3 l4 [Hm Hm'] H2]; subst.
  inversion H2 as [|kq q l5 l6 [Hq Hq'] H3]; subst. inversion H3; subst.
  exists p, m, q. cbn in *. repeat split; auto using all_cls_notamp.
  destruct q; [exfalso; apply Hq'; reflexivity|]. cbn [isdigit]. rewrite <- all_cls_digit. exact Hq.
Qed.

Ltac no_order H :=
  unfold classify_deletion, Extract.obind in H;
  repeat match type of H with
  | context [match ?x with _ => _ end] => destruct x
  | context [if ?x then _ else _] => destruct x
  end; discriminate H.

Lemma classify_order_inv : forall fn f o,
  classify fn f = Some (EvOrder o) ->
  exists url p q, as_str (f_url f) = Some url /\
    Re.search Re.regex_url url = Some [p; o_mesa o; q] /\
    o_qtde o = int_of_digits q /\ o_arquivo o = fn /\ o_request o = url /\
    (String.length q <= max_str_digits)%nat /\ (o_qtde o < float_overflow_bound)%Z /\
    o_horario o = f_horario f.
Proof.
  intros fn f o H. unfold classify in H.
  destruct (as_str (f_url f)) as [url|] eqn:Eu; cbn [Extract.obind] in H; [|discriminate H].
  destruct (Re.search Re.regex_url url) as [caps|] eqn:Es; [|no_order H].
  destruct caps as [|p [|m [|q [|x rest]]]]; try no_order H.
  destruct (max_str_digits <? String.length q)%nat eqn:El; [discriminate H|].
  destruct (parse_nomeprod p) as [produto valor_unit].
  destruct (float_overflow_bound <=? int_of_digits q)%Z eqn:Eb; [discriminate H|].
  destruct (lancamento_id_of (f_body f)); cbn [Extract.obind] in H; [|discriminate H].
  injection H as <-. exists url, p, q. cbn [o_mesa o_qtde o_arquivo o_request o_horario].
  apply Nat.ltb_ge in El. apply Z.leb_gt in Eb. repeat split; assumption.
Qed.

(** X1: every order the extractor emits has a non-empty table id with no
    [&] in it, and a quantity read by [int] from a non-empty string of
    at most 4300 digits, below the bound from which [quant * valor_unit]
    overflows converting [quant] to a float. *)
Theorem order_event_mesa_and_quant : forall fn e o,
  process_entry fn e = Some (EvOrder o) ->
  o_mesa o <> EmptyString /\ ~ In "&"%char (list_ascii_of_string (o_mesa o)) /\
  exists q, isdigit q = true /\ o_qtde o = int_of_digits q /\
    (String.length q <= max_str_digits)%nat /\ (o_qtde o < float_overflow_bound)%Z.
Proof.
  intros fn e o H. unfold process_entry, Extract.obind in H.
  destruct (read_entry e) as [f|]; [|discriminate H].
  destruct (classify_order_inv fn f o H) as (url & p & q & _ & Hs & Hq & _ & _ & Hl & Hb & _).
  destruct (search_regex_url _ _ Hs) as (p' & m' & q' & Heq & _ & Hm & Ha & Hd).
  injection Heq as <- <- <-. repeat split; [exact Hm|exact Ha|]. exists q. auto.
Qed.

Lemma order_event_mesa_and_quant_witness :
  (exists o, hamburguer_order = Some (EvOrder o) /\
     o_mesa o <> EmptyString /\ ~ In "&"%char (list_ascii_of_string (o_mesa o)) /\
     exists q, isdigit q = true /\ o_qtde o = int_of_digits q /\
       (String.length q <= max_str_digits)%nat /\ (o_qtde o < float_overflow_bound)%Z) /\
  (exists o, process_entry "caixa.har" numeric_time_entry = Some (EvOrder o) /\
     o_horario o = HOther (JNum 1714564800) /\
     o_mesa o <> EmptyString /\ ~ In "&"%char (list_ascii_of_string (o_mesa o)) /\
     exists q, isdigit q = true /\ o_qtde o = int_of_digits q /\
       (String.length q <= max_str_digits)%nat /\ (o_qtde o < float_overflow_bound)%Z).
Proof.
  split.
  - eexists. split; [reflexivity|].
    apply (order_event_mesa_and_quant "caixa.har" (hamburguer_entry "2024-05-01T12:00:00Z")).
    reflexivity.
  - eexists. split; [vm_compute; reflexivity|]. split; [vm_compute; reflexivity|].
    apply (order_event_mesa_and_quant "caixa.har" numeric_time_entry).
    vm_compute. reflexivity.
Defined.

(** X2: an entry whose URL matches the order pattern gives an order or
    nothing: the registration and deletion rules are never tried on it. *)
Theorem order_url_never_other_event : forall fn f url caps,
  as_str (f_url f) = Some url -> Re.search Re.regex_url url = Some caps ->
  classify fn f = None \/ exists o, classify fn f = Some (EvOrder o).
Proof.
  intros fn f url caps Hu Hs.
  destruct (search_regex_url _ _ Hs) as (p & m & q & -> & _).
  unfold classify. rewrite Hu. cbn [Extract.obind]. rewrite Hs.
  destruct (max_str_digits <? String.length q)%nat; [left; reflexivity|].
  destruct (parse_nomeprod p) as [produto valor_unit].
  destruct (float_overflow_bound <=? int_of_digits q)%Z; [left; reflexivity|].
  destruct (lancamento_id_of (f_body f)); cbn [Extract.obind]; [right; eexists; reflexivity|left; reflexivity].
Qed.

Lemma order_url_never_other_event_witness : exists f,
  read_entry (hamburguer_entry "2024-05-01T12:00:00Z") = Some f /\
  (classify "caixa.har" f = None \/ exists o, classify "caixa.har" f = Some (EvOrder o)).
Proof.
  eexists. split; [reflexivity|].
  apply (order_url_never_other_event "caixa.har" _ hamburguer_url
           ["Hamburguer%20R%24%2025%2C00"; "Mesa01"; "2"]).
  - reflexivity.
  - vm_compute. reflexivity.
Defined.

(* ------------------------------------------------------------------ *)
(** ** The file name recorded with every order *)

Lemma keep_chars_Forall : forall f s,
  Forall (fun c => f c = true) (list_ascii_of_string (keep_chars f s)).
Proof.
  intros f s. induction s as [|c s IH]; simpl; [constructor|].
  destruct (f c) eqn:E; simpl; [constructor|]; assumption.
Qed.

Lemma lstrip_set_Forall : forall (P : ascii -> Prop) f s,
  Forall P (list_ascii_of_string s) -> Forall P (list_ascii_of_string (lstrip_set f s)).
Proof.
  intros P f s. induction s as [|c s IH]; intro H; simpl; [constructor|].
  destruct (f c); [apply IH; inversion H; assumption|exact H].
Qed.

Lemma rev_str_Forall : forall (P : ascii -> Prop) s,
  Forall P (list_ascii_of_string s) -> Forall P (list_ascii_of_string (rev_str s)).
Proof.
  intros P s H. unfold rev_str. rewrite list_ascii_of_string_of_list_ascii.
  apply Forall_rev, H.
Qed.

Lemma lstrip_set_head : forall f s,
  lstrip_set f s = EmptyString \/
  exists c t, lstrip_set f s = String c t /\ f c = false.
Proof.
  intros f s. induction s as [|c s IH]; simpl; [left; reflexivity|].
  destruct (f c) eqn:E; [exact IH|right; exists c, s; auto].
Qed.

Lemma lstrip_set_keeps_last : forall f l c,
  f c = false ->
  exists l', lstrip_set f (string_of_list_ascii (l ++ [c])) = string_of_list_ascii (l' ++ [c]).
Proof.
  intros f l c Hc. induction l as [|a l IH]; simpl.
  - rewrite Hc. exists []. reflexivity.
  - destruct (f a); [exact IH|]. exists (a :: l). reflexivity.
Qed.

Lemma rev_str_involutive : forall s, rev_str (rev_str s) = s.
Proof.
  intro s. unfold rev_str. rewrite list_ascii_of_string_of_list_ascii, rev_involutive.
  apply string_of_list_ascii_of_string.
Qed.

Lemma secure_filename_shape : forall fn,
  Forall (fun c => is_safe_char c = true) (list_ascii_of_string (secure_filename fn)) /\
  (secure_filename fn = EmptyString \/
   exists c t c' t', secure_filename fn = String c t /\ c <> "."%char /\ c <> "_"%char /\
     rev_str (secure_filename fn) = String c' t' /\ c' <> "."%char /\ c' <> "_"%char).
Proof.
  intro fn. unfold secure_filename. cbv zeta.
  set (d := fun c => Ascii.eqb c "."%char || Ascii.eqb c "_"%char).
  set (joined := keep_chars is_safe_char _).
  assert (Hd : forall c, d c = false -> c <> "."%char /\ c <> "_"%char).
  { intros c Hc. unfold d in Hc. apply orb_false_iff in Hc as [H1 H2].
    split; intros ->; discriminate. }
  split.
  - apply rev_str_Forall, lstrip_set_Forall, rev_str_Forall, lstrip_set_Forall.
    apply keep_chars_Forall.
  - destruct (lstrip_set_head d joined) as [->|(c & t & Ht & Hc)]; [left; reflexivity|].
    right. rewrite Ht.
    replace (rev_str (String c t)) with (string_of_list_ascii (rev (list_ascii_of_string t) ++ [c]))
      by reflexivity.
    destruct (lstrip_set_keeps_last d (rev (list_ascii_of_string t)) c Hc) as [l' Hl'].
    destruct (lstrip_set_head d (string_of_list_ascii (rev (list_ascii_of_string t) ++ [c])))
      as [He|(c' & t' & Hz & Hc')].
    { rewrite Hl' in He. destruct l'; discriminate. }
    rewrite Hl' in Hz |- *. rewrite rev_str_involutive.
    exists c, (string_of_list_ascii (rev l')), c', t'.
    destruct (Hd c Hc), (Hd c' Hc').
    unfold rev_str. rewrite list_ascii_of_string_of_list_ascii, rev_app_distr.
    repeat split; auto.
Qed.

Lemma file_lists_orders_named : forall u o,
  In o (fst (fst (file_lists u))) ->
  filename u <> EmptyString /\ ends_with ".har" (filename u) = true /\
  exists e, process_entry (secure_filename (filename u)) e = Some (EvOrder o).
Proof.
  intros u o H. unfold file_lists in H.
  destruct (negb _ && _) eqn:En; [|contradiction].
  apply andb_prop in En as [En Eh]. apply negb_true_iff, String.eqb_neq in En.
  split; [exact En|split; [exact Eh|]].
  destruct (content u) as [doc|]; [|contradiction].
  unfold process_har_file in H.
  destruct doc as [j|]; [|contradiction].
  destruct (Extract.obind _ _); [|contradiction].
  destruct (iter j0) as [entries|]; [|contradiction].
  apply orders_of_In, in_flat_map in H as (e & _ & He).
  destruct (process_entry _ e) eqn:Ep; [|contradiction].
  destruct He as [Heq|[]]. subst. eauto.
Qed.

Lemma process_entry_arquivo : forall fn e o,
  process_entry fn e = Some (EvOrder o) -> o_arquivo o = fn.
Proof.
  intros fn e o H. unfold process_entry, Extract.obind in H.
  destruct (read_entry e) as [f|]; [|discriminate H].
  destruct (classify_order_inv fn f o H) as (_ & _ & _ & _ & _ & _ & Ha & _). exact Ha.
Qed.

Lemma report_row_upload : forall pd files r row,
  process_all_files pd files = inl (Some r) -> In row (lancamentos r) ->
  exists u, In u (multidict_values files) /\ filename u <> EmptyString /\
    ends_with ".har" (filename u) = true /\ row_arquivo row = secure_filename (filename u).
Proof.
  intros pd files r row Hr Hrow.
  destruct (process_all_files_rows pd files r row Hr Hrow) as (o & k & Ho & _ & ->).
  apply collect_orders_go in Ho as [[]|(u & Hu & Hou)].
  destruct (file_lists_orders_named u o Hou) as (Hn & Hh & e & He).
  exists u. repeat split; try assumption.
  exact (process_entry_arquivo _ _ _ He).
Qed.

(** X3: the [arquivo_origem] of every row of the report is the
    [secure_filename] of the name of a non-empty-named [.har] upload
    (NFKD-normalised, non-ASCII dropped, separators turned into spaces,
    words joined by [_], unsafe characters removed, [.] and [_] stripped);
    it consists only of ASCII letters, digits, [_], [.] and [-], and is
    empty or neither starts nor ends with [.] or [_]. *)
Theorem arquivo_origem_sanitized : forall pd_parse files r row,
  process_all_files pd_parse files = inl (Some r) -> In row (lancamentos r) ->
  (exists u, In u (multidict_values files) /\ ends_with ".har" (filename u) = true /\
     row_arquivo row = secure_filename (filename u)) /\
  Forall (fun c => is_safe_char c = true) (list_ascii_of_string (row_arquivo row)) /\
  (row_arquivo row = EmptyString \/
   exists c t c' t', row_arquivo row = String c t /\ c <> "."%char /\ c <> "_"%char /\
     rev_str (row_arquivo row) = String c' t' /\ c' <> "."%char /\ c' <> "_"%char).
Proof.
  intros pd files r row Hr Hrow.
  destruct (report_row_upload pd files r row Hr Hrow) as (u & Hu & _ & Hh & Ha).
  rewrite Ha. split; [exists u; auto|]. apply secure_filename_shape.
Qed.

Lemma arquivo_origem_sanitized_witness : exists r,
  process_all_files (fun _ _ => None) accented_name_uploads = inl (Some r) /\ exists row,
  In row (lancamentos r) /\ row_arquivo row = "relatorio_cafe_1.har" /\
  ((exists u, In u (multidict_values accented_name_uploads) /\ ends_with ".har" (filename u) = true /\
     row_arquivo row = secure_filename (filename u)) /\
  Forall (fun c => is_safe_char c = true) (list_ascii_of_string (row_arquivo row)) /\
  (row_arquivo row = EmptyString \/
   exists c t c' t', row_arquivo row = String c t /\ c <> "."%char /\ c <> "_"%char /\
     rev_str (row_arquivo row) = String c' t' /\ c' <> "."%char /\ c' <> "_"%char)).
Proof.
  eexists. split; [vm_compute; reflexivity|].
  match goal with |- exists row, In row (lancamentos ?r) /\ _ =>
    let v := eval vm_compute in (lancamentos r) in
    match v with ?row :: _ =>
      assert (Hin : In row (lancamentos r)) by (vm_compute; left; reflexivity);
      exists row; split; [exact Hin|]; split; [vm_compute; reflexivity|];
      exact (arquivo_origem_sanitized (fun _ _ => None) accented_name_uploads r row
               ltac:(vm_compute; reflexivity) Hin)
    end
  end.
Defined.

(* ------------------------------------------------------------------ *)
(** ** The loop over the uploads *)

(** X4: an upload whose name does not end in [.har] contributes nothing:
    [collect] gives the same lists with or without it, whatever its
    content. *)
Theorem non_har_upload_skipped : forall prev u us,
  ends_with ".har" (filename u) = false ->
  collect (prev ++ u :: us) = collect (prev ++ us).
Proof.
  intros prev u us H. apply collect_skip. unfold file_lists. rewrite H, andb_false_r.
  reflexivity.
Qed.

Lemma non_har_upload_skipped_witness :
  ends_with ".har" "caixa.har.txt" = false /\
  collect ([har_upload "dia.har" [hamburguer_entry "2024-05-01T12:00:00Z"]] ++
           har_upload "caixa.har.txt" [hamburguer_entry "2024-05-01T13:00:00Z"] :: [])
  = collect ([har_upload "dia.har" [hamburguer_entry "2024-05-01T12:00:00Z"]] ++ []).
Proof.
  split; [reflexivity|].
  apply (non_har_upload_skipped _ (har_upload "caixa.har.txt" [hamburguer_entry "2024-05-01T13:00:00Z"]) []).
  reflexivity.
Defined.

Definition collect_step (acc : har_lists) (u : upload) : har_lists :=
  let '(l, c, d) := acc in
  let '(l', c', d') := file_lists u in ((l ++ l')%list, (c ++ c')%list, (d ++ d')%list).

Definition lists_app (a b : har_lists) : har_lists :=
  let '(l, c, d) := a in let '(l', c', d') := b in ((l ++ l')%list, (c ++ c')%list, (d ++ d')%list).

Lemma collect_fold_acc : forall ups acc,
  fold_left collect_step ups acc = lists_app acc (fold_left collect_step ups ([], [], [])).
Proof.
  induction ups as [|u ups IH]; intro acc.
  - destruct acc as [[l c] d]. cbn. rewrite !app_nil_r. reflexivity.
  - cbn [fold_left]. rewrite IH, (IH (collect_step ([], [], []) u)).
    destruct acc as [[l c] d]. unfold collect_step.
    destruct (file_lists u) as [[l' c'] d'].
    unfold lists_app.
    match goal with |- context [fold_left ?f ups ?i] => destruct (fold_left f ups i) as [[l'' c''] d''] end.
    cbn [app]. rewrite !app_assoc. reflexivity.
Qed.

(** X5: the lists gathered from two groups of uploads sent together are
    the lists of the first group followed by those of the second, list by
    list: files are processed independently and in order. *)
Theorem collect_app : forall a b,
  collect (a ++ b) = lists_app (collect a) (collect b).
Proof.
  intros a b. change (collect (a ++ b)) with (fold_left collect_step (a ++ b) ([], [], [])).
  rewrite fold_left_app, collect_fold_acc. reflexivity.
Qed.

(* ------------------------------------------------------------------ *)
(** ** The loop over the entries of one file *)

Definition entry_events (fn : string) (entries : list json) : list event :=
  flat_map (fun e => match process_entry fn e with Some ev => [ev] | None => [] end) entries.

Lemma process_har_doc : forall entries fn,
  process_har_file (Some (har_doc entries)) fn =
  inl (orders_of (entry_events fn entries), regs_of (entry_events fn entries),
       dels_of (entry_events fn entries)).
Proof. reflexivity. Qed.

(** X6: a HAR document whose entries are those of two documents one after
    the other gives, list by list, the lists of the first followed by those
    of the second: every entry is handled on its own, in order. *)
Theorem process_har_file_entries_app : forall a b fn x y,
  process_har_file (Some (har_doc a)) fn = inl x ->
  process_har_file (Some (har_doc b)) fn = inl y ->
  process_har_file (Some (har_doc (a ++ b))) fn = inl (lists_app x y).
Proof.
  intros a b fn x y Ha Hb. rewrite process_har_doc in Ha, Hb |- *.
  injection Ha as <-. injection Hb as <-.
  unfold entry_events, orders_of, regs_of, dels_of. rewrite !flat_map_app. reflexivity.
Qed.

Lemma process_har_file_entries_app_witness : exists x y,
  process_har_file (Some (har_doc [hamburguer_entry "2024-05-01T12:00:00Z"])) "caixa.har" = inl x /\
  process_har_file (Some (har_doc [zero_qty_entry])) "caixa.har" = inl y /\
  process_har_file (Some (har_doc ([hamburguer_entry "2024-05-01T12:00:00Z"] ++ [zero_qty_entry])))
    "caixa.har" = inl (lists_app x y).
Proof.
  eexists. eexists. split; [reflexivity|]. split; [reflexivity|].
  apply process_har_file_entries_app; reflexivity.
Defined.

(** X7: an entry the per-entry [try] passes over (one that raises, or
    matches none of the three URL rules) leaves the result of
    [process_har_file] as if it were not in the file. *)
Theorem skipped_entry_no_effect : forall fn l1 e l2,
  process_entry fn e = None ->
  process_har_file (Some (har_doc (l1 ++ e :: l2))) fn =
  process_har_file (Some (har_doc (l1 ++ l2))) fn.
Proof.
  intros fn l1 e l2 He. rewrite !process_har_doc.
  unfold entry_events. rewrite !flat_map_app. cbn [flat_map]. rewrite He. reflexivity.
Qed.

Lemma skipped_entry_no_effect_witness :
  process_entry "caixa.har" (JStr "lixo") = None /\
  process_har_file (Some (har_doc ([hamburguer_entry "2024-05-01T12:00:00Z"] ++
                                   JStr "lixo" :: [zero_qty_entry]))) "caixa.har" =
  process_har_file (Some (har_doc ([hamburguer_entry "2024-05-01T12:00:00Z"] ++
                                   [zero_qty_entry]))) "caixa.har".
Proof.
  split; [reflexivity|]. apply skipped_entry_no_effect. reflexivity.
Defined.

(* ------------------------------------------------------------------ *)
(** ** Deduplication and numbering of the orders *)

Lemma drop_duplicates_go_covers : forall inst l seen o,
  In o l -> In (key_of inst o) seen \/
  exists o', In o' (drop_duplicates_go inst seen l) /\ key_of inst o' = key_of inst o.
Proof.
  intro inst. induction l as [|x l IH]; intros seen o H; [contradiction|].
  cbn [drop_duplicates_go].
  destruct (existsb (key_eqb (key_of inst x)) seen) eqn:Ex.
  - destruct H as [<-|H]; [left; apply existsb_key_In, Ex|apply IH, H].
  - destruct H as [<-|H]; [right; exists x; split; [left|]; reflexivity|].
    destruct (IH (key_of inst x :: seen) o H) as [[Hk|Hk]|(o' & Ho' & Hk)].
    + right. exists x. split; [left; reflexivity|exact Hk].
    + left. exact Hk.
    + right. exists o'. split; [right; exact Ho'|exact Hk].
Qed.

(** X8: after [drop_duplicates] no two orders share the key
    ([mesa], [produto], [Qtde], [request], [horario_norm]), every kept order
    comes from the input, and every input order has a kept order with its
    key. *)
Theorem drop_duplicates_keys : forall inst l,
  NoDup (map (key_of inst) (drop_duplicates inst l)) /\
  incl (drop_duplicates inst l) l /\
  (forall o, In o l -> exists o', In o' (drop_duplicates inst l) /\ key_of inst o' = key_of inst o).
Proof.
  intros inst l. split; [apply (drop_duplicates_go_NoDup inst)|split].
  - intros o H. exact (drop_duplicates_In inst l o H).
  - intros o H. destruct (drop_duplicates_go_covers inst l [] o H) as [[]|Hk]. exact Hk.
Qed.

Lemma number_rows_shape : forall inst cast l n,
  map row_n (number_rows inst cast n l) = map (fun i => (n + Z.of_nat i)%Z) (seq 0 (length l)) /\
  Forall (fun row => row_deletar row = EmptyString) (number_rows inst cast n l) /\
  length (number_rows inst cast n l) = length l.
Proof.
  intros inst cast. induction l as [|o l IH]; intro n; [repeat constructor|].
  destruct (IH (n + 1)%Z) as (H1 & H2 & H3).
  cbn [number_rows map length]. split; [|split].
  - rewrite H1. cbn [seq map]. rewrite <- seq_shift, map_map. f_equal; [cbn; lia|].
    apply map_ext. intro i. lia.
  - constructor; [reflexivity|exact H2].
  - rewrite H3. reflexivity.
Qed.

(** X9: the orders table of the report is numbered 1, 2, ... in order, has
    one row per order kept by [drop_duplicates], and has an empty
    [deletar] column. *)
Theorem consolidate_orders_numbering : forall pd_parse lanc,
  map row_n (consolidate_orders pd_parse lanc) =
    map (fun i => Z.of_nat i + 1)%Z
      (seq 0 (length (drop_duplicates (order_instants pd_parse lanc) lanc))) /\
  length (consolidate_orders pd_parse lanc) =
    length (drop_duplicates (order_instants pd_parse lanc) lanc) /\
  Forall (fun row => row_deletar row = EmptyString) (consolidate_orders pd_parse lanc).
Proof.
  intros pd lanc. unfold consolidate_orders.
  destruct (number_rows_shape (order_instants pd lanc) (astype_int64 (qtde_dtype_of_orders lanc))
              (drop_duplicates (order_instants pd lanc) lanc) 1) as (H1 & H2 & H3).
  split; [|split; assumption]. rewrite H1. apply map_ext. intro i. lia.
Qed.

(* ------------------------------------------------------------------ *)
(** ** The registrations table *)

Section RegOrder.

Variable inst : horario -> option Z.

Lemma insert_asc_perm : forall r l, Permutation (insert_asc inst r l) (r :: l).
Proof.
  intros r l. induction l as [|r' l IH]; cbn [insert_asc]; [reflexivity|].
  destruct (reg_wall inst r), (reg_wall inst r'); try destruct (_ <? _)%Z;
    try reflexivity; rewrite IH; apply perm_swap.
Qed.

Lemma fold_insert_asc_perm : forall l acc,
  Permutation (fold_left (fun acc r => insert_asc inst r acc) l acc) (l ++ acc).
Proof.
  induction l as [|r l IH]; intro acc; [reflexivity|].
  cbn [fold_left app]. rewrite IH, insert_asc_perm. symmetry. apply Permutation_middle.
Qed.

Lemma sort_regs_perm : forall l, Permutation (sort_regs inst l) l.
Proof.
  intro l. unfold sort_regs. rewrite fold_insert_asc_perm, app_nil_r.
  rewrite Permutation_app_comm.
  set (f := fun r => match reg_wall inst r with Some _ => true | None => false end).
  rewrite <- (filter_split_perm f l) at 3.
  rewrite (filter_ext (fun r => match reg_wall inst r with Some _ => false | None => true end)
             (fun x => negb (f x))); [reflexivity|].
  intro r. unfold f. destruct (reg_wall inst r); reflexivity.
Qed.

Lemma existsb_mesa_In : forall m seen, existsb (String.eqb m) seen = true <-> In m seen.
Proof.
  intros m seen. rewrite existsb_exists. split.
  - intros (m' & Hin & Heq). apply String.eqb_eq in Heq. subst. exact Hin.
  - intro Hin. exists m. split; [exact Hin|apply String.eqb_refl].
Qed.

Lemma drop_dup_mesa_In : forall l seen r,
  In r (drop_dup_mesa seen l) -> In r l /\ ~ In (r_mesa r) seen.
Proof.
  induction l as [|x l IH]; intros seen r H; [contradiction|].
  cbn [drop_dup_mesa] in H. destruct (existsb (String.eqb (r_mesa x)) seen) eqn:Ex.
  - apply IH in H as [H1 H2]. split; [right|]; assumption.
  - destruct H as [<-|H].
    + split; [left; reflexivity|]. intro Hin. apply existsb_mesa_In in Hin. congruence.
    + apply IH in H as [H1 H2]. split; [right; exact H1|]. intro Hin. apply H2. right. exact Hin.
Qed.

Lemma drop_dup_mesa_NoDup : forall l seen, NoDup (map r_mesa (drop_dup_mesa seen l)).
Proof.
  induction l as [|x l IH]; intro seen; cbn [drop_dup_mesa]; [constructor|].
  destruct (existsb (String.eqb (r_mesa x)) seen); [apply IH|].
  cbn [map]. constructor; [|apply IH].
  intro Hin. apply in_map_iff in Hin as (y & Hy & Hin).
  apply drop_dup_mesa_In in Hin as [_ Hn]. apply Hn. rewrite Hy. left. reflexivity.
Qed.

Lemma drop_dup_mesa_covers : forall l seen r',
  In r' l -> In (r_mesa r') seen \/
  exists r, In r (drop_dup_mesa seen l) /\ r_mesa r = r_mesa r'.
Proof.
  induction l as [|x l IH]; intros seen r' H; [contradiction|].
  cbn [drop_dup_mesa].
  destruct (existsb (String.eqb (r_mesa x)) seen) eqn:Ex.
  - destruct H as [<-|H]; [left; apply existsb_mesa_In, Ex|apply IH, H].
  - destruct H as [<-|H]; [right; exists x; split; [left|]; reflexivity|].
    destruct (IH (r_mesa x :: seen) r' H) as [[Hk|Hk]|(r & Hr & Hk)].
    + right. exists x. split; [left; reflexivity|exact Hk].
    + left. exact Hk.
    + right. exists r. split; [right; exact Hr|exact Hk].
Qed.

Definition reg_not_after (x y : registration) : Prop :=
  forall b, reg_wall inst y = Some b -> exists a, reg_wall inst x = Some a /\ (a <= b)%Z.

Lemma reg_not_after_trans : Transitive reg_not_after.
Proof.
  intros x y z Hxy Hyz c Hc. destruct (Hyz c Hc) as (b & Hb & Hbc).
  destruct (Hxy b Hb) as (a & Ha & Hab). exists a. split; [exact Ha|lia].
Qed.

Lemma insert_asc_HdRel : forall x r l,
  HdRel reg_not_after x l -> reg_not_after x r -> HdRel reg_not_after x (insert_asc inst r l).
Proof.
  intros x r [|r' l] Hl Hr; cbn [insert_asc]; [constructor; exact Hr|].
  inversion Hl; subst.
  destruct (reg_wall inst r), (reg_wall inst r'); try destruct (_ <? _)%Z; constructor; assumption.
Qed.

Lemma insert_asc_sorted : forall r a l,
  reg_wall inst r = Some a -> Forall (fun x => exists b, reg_wall inst x = Some b) l ->
  Sorted reg_not_after l -> Sorted reg_not_after (insert_asc inst r l).
Proof.
  intros r a l Ha. induction l as [|r' l IH]; intros Ht Hs; cbn [insert_asc].
  - repeat constructor.
  - inversion Ht as [|? ? (b & Hb) Ht']; subst. inversion Hs; subst.
    rewrite Ha, Hb. destruct (a <? b)%Z eqn:Eab.
    + constructor; [exact Hs|]. constructor. intros c Hc. rewrite Hb in Hc.
      injection Hc as <-. exists a. split; [exact Ha|]. apply Z.ltb_lt in Eab. lia.
    + constructor; [apply IH; assumption|]. apply insert_asc_HdRel; [assumption|].
      intros c Hc. rewrite Ha in Hc. injection Hc as <-. exists b. split; [exact Hb|].
      apply Z.ltb_ge in Eab. lia.
Qed.

Lemma fold_insert_asc_sorted : forall l acc,
  Forall (fun x => exists b, reg_wall inst x = Some b) l ->
  Forall (fun x => exists b, reg_wall inst x = Some b) acc ->
  Sorted reg_not_after acc ->
  Sorted reg_not_after (fold_left (fun acc r => insert_asc inst r acc) l acc) /\
  Forall (fun x => exists b, reg_wall inst x = Some b) (fold_left (fun acc r => insert_asc inst r acc) l acc).
Proof.
  induction l as [|r l IH]; intros acc Hl Hacc Hs; [split; assumption|].
  inversion Hl as [|? ? (a & Ha) Hl']; subst. cbn [fold_left]. apply IH; [exact Hl'| |].
  - apply Forall_forall. intros x Hx.
    apply (Permutation_in _ (insert_asc_perm r acc)) in Hx as [<-|Hx]; [exists a; exact Ha|].
    exact (proj1 (Forall_forall _ _) Hacc x Hx).
  - exact (insert_asc_sorted r a acc Ha Hacc Hs).
Qed.

Lemma sort_regs_sorted : forall l, StronglySorted reg_not_after (sort_regs inst l).
Proof.
  intro l. unfold sort_regs.
  set (S := fold_left _ _ []). set (N := filter _ l).
  assert (HS : StronglySorted reg_not_after S /\ Forall (fun x => exists b, reg_wall inst x = Some b) S).
  { destruct (fold_insert_asc_sorted
      (filter (fun r => match reg_wall inst r with Some _ => true | None => false end) l) [])
      as [H1 H2]; [| constructor | constructor |].
    - apply Forall_forall. intros x Hx. apply filter_In in Hx as [_ Hx].
      destruct (reg_wall inst x); [eexists; reflexivity|discriminate].
    - split; [apply Sorted_StronglySorted; [apply reg_not_after_trans|exact H1]|exact H2]. }
  assert (HN : forall y, In y N -> reg_wall inst y = None).
  { intros y Hy. apply filter_In in Hy as [_ Hy]. destruct (reg_wall inst y); [discriminate|reflexivity]. }
  assert (HNs : StronglySorted reg_not_after N).
  { clearbody N. induction N as [|y N IHN]; constructor.
    - apply IHN. intros z Hz. apply HN. right. exact Hz.
    - apply Forall_forall. intros z Hz b Hb. rewrite (HN z (or_intror Hz)) in Hb. discriminate. }
  destruct HS as [HS _]. clearbody S N. induction S as [|x S IHS]; [exact HNs|].
  inversion HS; subst. cbn [app]. constructor; [apply IHS; assumption|].
  apply Forall_app. split; [assumption|].
  apply Forall_forall. intros z Hz b Hb. rewrite (HN z Hz) in Hb. discriminate.
Qed.

Lemma drop_dup_mesa_first : forall l seen r r',
  StronglySorted reg_not_after l ->
  In r (drop_dup_mesa seen l) -> In r' l -> r_mesa r' = r_mesa r -> reg_not_after r r'.
Proof.
  induction l as [|x l IH]; intros seen r r' Hs Hr Hr' Hm; [contradiction|].
  inversion Hs as [|? ? Hs' Hx]; subst. cbn [drop_dup_mesa] in Hr.
  destruct (existsb (String.eqb (r_mesa x)) seen) eqn:Ex.
  - destruct Hr' as [<-|Hr'].
    + apply drop_dup_mesa_In in Hr as [_ Hn]. exfalso. apply Hn.
      rewrite <- Hm. apply existsb_mesa_In, Ex.
    + exact (IH seen r r' Hs' Hr Hr' Hm).
  - destruct Hr as [<-|Hr].
    + destruct Hr' as [<-|Hr'].
      * intros b Hb. exists b. split; [exact Hb|lia].
      * exact (proj1 (Forall_forall _ _) Hx r' Hr').
    + destruct Hr' as [<-|Hr'].
      * apply drop_dup_mesa_In in Hr as [_ Hn]. exfalso. apply Hn. rewrite <- Hm. left. reflexivity.
      * exact (IH _ r r' Hs' Hr Hr' Hm).
Qed.

Lemma drop_dup_mesa_sorted : forall l seen,
  StronglySorted reg_not_after l -> StronglySorted reg_not_after (drop_dup_mesa seen l).
Proof.
  induction l as [|x l IH]; intros seen Hs; cbn [drop_dup_mesa]; [constructor|].
  inversion Hs as [|? ? Hs' Hx]; subst.
  destruct (existsb (String.eqb (r_mesa x)) seen); [apply IH, Hs'|].
  constructor; [apply IH, Hs'|]. apply Forall_forall. intros y Hy.
  apply drop_dup_mesa_In in Hy as [Hy _]. exact (proj1 (Forall_forall _ _) Hx y Hy).
Qed.

End RegOrder.

(** X10: the registrations table of the report has at most one row per
    table id, all its rows are registrations of the uploads, and every table
    registered in the uploads has a row. *)
Theorem consolidate_regs_tables : forall pd_parse cad,
  NoDup (map r_mesa (consolidate_regs pd_parse cad)) /\
  incl (consolidate_regs pd_parse cad) cad /\
  (forall r', In r' cad -> exists r, In r (consolidate_regs pd_parse cad) /\ r_mesa r = r_mesa r').
Proof.
  intros pd cad. unfold consolidate_regs. split; [apply drop_dup_mesa_NoDup|split].
  - intros r H. apply drop_dup_mesa_In in H as [H _].
    exact (Permutation_in _ (sort_regs_perm _ cad) H).
  - intros r' H. apply (Permutation_in _ (Permutation_sym (sort_regs_perm (reg_instants pd cad) cad))) in H.
    destruct (drop_dup_mesa_covers _ [] r' H) as [[]|Hk]. exact Hk.
Qed.

(** X11: the registration kept for a table is its earliest one by Sao Paulo
    wall time: when any registration of that table has a valid
    [horario_cadastro], the kept one has one too, and it is not later. *)
Theorem consolidate_regs_earliest : forall pd_parse cad r r' b,
  In r (consolidate_regs pd_parse cad) -> In r' cad -> r_mesa r' = r_mesa r ->
  reg_wall (reg_instants pd_parse cad) r' = Some b ->
  exists a, reg_wall (reg_instants pd_parse cad) r = Some a /\ (a <= b)%Z.
Proof.
  intros pd cad r r' b Hr Hr' Hm Hb. unfold consolidate_regs in Hr.
  apply (Permutation_in _ (Permutation_sym (sort_regs_perm (reg_instants pd cad) cad))) in Hr'.
  exact (drop_dup_mesa_first _ _ [] r r' (sort_regs_sorted _ cad) Hr Hr' Hm b Hb).
Qed.

Lemma consolidate_regs_earliest_witness :
  let cad := snd (fst (collect double_registration_uploads)) in
  let inst := reg_instants (fun _ _ => None) cad in
  exists r r' b, In r (consolidate_regs (fun _ _ => None) cad) /\ In r' cad /\ r_mesa r' = r_mesa r /\
    reg_wall inst r' = Some b /\ r_arquivo r = "manha.har" /\ r_arquivo r' = "tarde.har" /\
    exists a, reg_wall inst r = Some a /\ (a <= b)%Z.
Proof.
  intros cad inst.
  let c := eval vm_compute in cad in
  let k := eval vm_compute in (consolidate_regs (fun _ _ => None) cad) in
  match c with ?r' :: _ => match k with ?r :: _ =>
    assert (Hr : In r (consolidate_regs (fun _ _ => None) cad)) by (vm_compute; left; reflexivity);
    assert (Hr' : In r' cad) by (vm_compute; left; reflexivity);
    let w := eval vm_compute in (reg_wall inst r') in
    match w with Some ?b => exists r, r', b end
  end end.
  split; [exact Hr|]. split; [exact Hr'|]. split; [reflexivity|]. split; [vm_compute; reflexivity|].
  split; [reflexivity|]. split; [reflexivity|].
  apply (consolidate_regs_earliest (fun _ _ => None) cad _ _ _ Hr Hr'); vm_compute; reflexivity.
Defined.

(* ------------------------------------------------------------------ *)
(** ** Uploads without orders *)



(* ------------------------------------------------------------------ *)
(** ** Positions in the ranking *)

Lemma in_combine_index : forall {C} (ks : list string) (ts : list C) s n i m t,
  In ((i, m), t) (combine (combine (map Z.of_nat (seq s n)) ks) ts) ->
  exists k, i = Z.of_nat (s + k) /\ nth_error ks k = Some m.
Proof.
  intros C ks. induction ks as [|k0 ks IH]; intros ts s n i m t H.
  - destruct n; cbn in H; contradiction.
  - destruct n as [|n]; [contradiction|]. destruct ts as [|t0 ts]; [contradiction|].
    cbn in H. destruct H as [Heq|H].
    + injection Heq as <- <- <-. exists 0%nat. split; [f_equal; lia|reflexivity].
    + destruct (IH ts (S s) n i m t H) as (k & -> & Hk).
      exists (S k). split; [f_equal; lia|exact Hk].
Qed.

(** X13: the [Posicao] of a ranking row is not its rank by total: it is
    one plus the index of its table among the group keys, which are the
    distinct tables in increasing string order ([groupby] sorts its keys and
    [sort_values] keeps the index). *)
Theorem ranking_position_is_key_index : forall rows,
  StronglySorted key_lt (group_keys rows) /\
  forall x, In x (ranking_of rows) ->
    (1 <= posicao x)%Z /\
    nth_error (group_keys rows) (Z.to_nat (posicao x - 1)) = Some (rank_mesa x).
Proof.
  intro rows. split.
  - unfold group_keys. exact (proj1 (group_keys_go rows [] (SSorted_nil _))).
  - intros x Hx. unfold ranking_of in Hx. apply in_map_iff in Hx as ([[i m] t] & <- & Hg).
    apply (Permutation_in _ (sort_desc_perm _)) in Hg. unfold grouped in Hg.
    destruct (in_combine_index _ _ 0 _ i m t Hg) as (k & -> & Hk).
    cbn [posicao rank_mesa]. split; [lia|].
    replace (Z.to_nat (Z.of_nat (0 + k) + 1 - 1)) with k by lia. exact Hk.
Qed.

(* ------------------------------------------------------------------ *)
(** ** [secure_filename] on its own output *)

Lemma safe_char_facts : forall c, is_safe_char c = true ->
  (code c < 128)%nat /\ Ascii.eqb "/"%char c = false /\ is_space c = false.
Proof.
  intros [[] [] [] [] [] [] [] []]; vm_compute; intro H;
    solve [discriminate H | repeat split; lia].
Qed.

Lemma keep_chars_id : forall f s,
  Forall (fun c => f c = true) (list_ascii_of_string s) -> keep_chars f s = s.
Proof.
  intros f s. induction s as [|c s IH]; intro H; [reflexivity|].
  inversion H; subst. cbn [keep_chars]. rewrite H2, IH; auto.
Qed.

Lemma nfkd_ascii_id : forall s,
  Forall (fun c => code c < 128)%nat (list_ascii_of_string s) -> nfkd_ascii s = s.
Proof.
  induction s as [|c s IH]; intro H; [reflexivity|].
  inversion H as [|? ? Hc Hs]; subst. cbn [nfkd_ascii]. unfold nfkd_ascii_char.
  rewrite (proj2 (Nat.ltb_lt _ _) Hc), IH by exact Hs. reflexivity.
Qed.

Lemma replace_char_id : forall c r s,
  Forall (fun d => Ascii.eqb c d = false) (list_ascii_of_string s) -> replace_char c r s = s.
Proof.
  intros c r s. induction s as [|d s IH]; intro H; [reflexivity|].
  inversion H; subst. cbn [replace_char]. rewrite H2, IH; auto.
Qed.

Lemma join_words_id : forall s,
  Forall (fun c => is_space c = false) (list_ascii_of_string s) -> join_words s false = s.
Proof.
  induction s as [|c s IH]; intro H; [reflexivity|].
  inversion H; subst. cbn [join_words]. rewrite H2, IH; auto.
Qed.

Lemma lstrip_set_id : forall f c t, f c = false -> lstrip_set f (String c t) = String c t.
Proof. intros f c t H. cbn. rewrite H. reflexivity. Qed.

(** X14: [secure_filename] leaves its own output unchanged: a name already
    made safe is recorded as it is. *)
Theorem secure_filename_idempotent : forall fn,
  secure_filename (secure_filename fn) = secure_filename fn.
Proof.
  intro fn. destruct (secure_filename_shape fn) as [Hsafe Hshape].
  set (s := secure_filename fn) in *.
  assert (Hf : forall P : ascii -> Prop, (forall c, is_safe_char c = true -> P c) ->
                 Forall P (list_ascii_of_string s)).
  { intros P HP. eapply Forall_impl; [|exact Hsafe]. exact HP. }
  unfold secure_filename at 1. cbv zeta.
  rewrite (nfkd_ascii_id s) by (apply Hf; intros c Hc; apply (safe_char_facts c Hc)).
  rewrite (replace_char_id _ _ s) by (apply Hf; intros c Hc; apply (safe_char_facts c Hc)).
  rewrite join_words_id by (apply Hf; intros c Hc; apply (safe_char_facts c Hc)).
  rewrite keep_chars_id by exact Hsafe.
  destruct Hshape as [He|(c & t & c' & t' & Hs & Hc1 & Hc2 & Hr & Hc1' & Hc2')].
  - rewrite He. reflexivity.
  - assert (Hd : forall x, x <> "."%char -> x <> "_"%char ->
                   (Ascii.eqb x "."%char || Ascii.eqb x "_"%char) = false).
    { intros x H1 H2. apply orb_false_iff. split; apply Ascii.eqb_neq; assumption. }
    rewrite Hs, lstrip_set_id by (apply Hd; assumption). rewrite <- Hs, Hr.
    rewrite lstrip_set_id by (apply Hd; assumption). rewrite <- Hr. apply rev_str_involutive.
Qed.

(* ------------------------------------------------------------------ *)
(** ** Deletion events *)

Lemma search_one_cap : forall ps s caps k,
  Re.cap_specs ps = [(k, true)] -> Re.search ps s = Some caps ->
  exists c, caps = [c] /\ Re.all_cls k c = true /\ c <> EmptyString.
Proof.
  intros ps s caps k Hs H. apply search_match_at in H as [s' H]. apply match_at_caps in H.
  rewrite Hs in H. inversion H as [|kp c l1 l2 [Hc Hne] H1]; subst. inversion H1; subst.
  exists c. split; [reflexivity|]. split; [exact Hc|apply Hne; reflexivity].
Qed.

Lemma classify_deletion_inv : forall fn f url d,
  classify_deletion fn f url = Some (EvDel d) ->
  exists m, contains "/inc/del_produtos.php" url = true /\
    as_str (f_method f) = Some m /\ str_upper m = "POST" /\
    isdigit (d_delete_id d) = true /\ d_request d = url /\ d_arquivo d = fn.
Proof.
  intros fn f url d H. unfold classify_deletion in H.
  destruct (contains "/inc/del_produtos.php" url) eqn:Ed; [|discriminate H].
  destruct (as_str (f_method f)) as [m|] eqn:Em; cbn [Extract.obind] in H; [|discriminate H].
  exists m.
  destruct (String.eqb (str_upper m) "POST") eqn:Ep; [|discriminate H].
  destruct (as_str (f_post_data f)) as [pdata|]; cbn [Extract.obind] in H; [|discriminate H].
  destruct (Re.search Re.regex_deletado pdata) as [caps|] eqn:Ex; [|discriminate H].
  destruct (search_one_cap Re.regex_deletado _ _ Re.Digit eq_refl Ex) as (c & -> & Hc & Hne).
  destruct (mesa_del_of (f_headers f)); cbn [Extract.obind] in H; [|discriminate H].
  injection H as <-. apply String.eqb_eq in Ep.
  repeat split; try assumption; try reflexivity.
  cbn [d_delete_id]. destruct c as [|c0 c]; [congruence|].
  cbn [isdigit]. rewrite <- all_cls_digit. exact Hc.
Qed.

(** X15: a deletion is recorded only for an entry whose URL does not match
    the order pattern, does not match the registration pattern unless the
    response status differs from 200, contains [/inc/del_produtos.php], and
    was sent with method POST (in any case);
    its [delete_id] is a non-empty string of digits, and the event keeps the
    URL and the file name. *)
Theorem deletion_event_shape : forall fn e d,
  process_entry fn e = Some (EvDel d) ->
  exists f url m, read_entry e = Some f /\ as_str (f_url f) = Some url /\
    Re.search Re.regex_url url = None /\
    (Re.search Re.regex_cadastro_mesa url = None \/ eq_200 (f_status f) = false) /\
    contains "/inc/del_produtos.php" url = true /\
    as_str (f_method f) = Some m /\ str_upper m = "POST" /\
    isdigit (d_delete_id d) = true /\ d_request d = url /\ d_arquivo d = fn.
Proof.
  intros fn e d H. unfold process_entry, Extract.obind in H.
  destruct (read_entry e) as [f|]; [|discriminate H]. exists f.
  unfold classify in H.
  destruct (as_str (f_url f)) as [url|] eqn:Eu; cbn [Extract.obind] in H; [|discriminate H].
  exists url.
  destruct (Re.search Re.regex_url url) as [caps|] eqn:Es.
  { destruct (search_regex_url _ _ Es) as (p & m & q & -> & _). no_order H. }
  destruct (Re.search Re.regex_cadastro_mesa url) as [caps|] eqn:Ec.
  - destruct (search_one_cap Re.regex_cadastro_mesa _ _ Re.NotAmp eq_refl Ec) as (c & -> & _).
    destruct (eq_200 (f_status f)) eqn:E2; [discriminate H|].
    destruct (classify_deletion_inv fn f url d H) as (m & H1 & H2 & H3 & H4 & H5 & H6).
    exists m. repeat split; try assumption; try reflexivity. right. reflexivity.
  - destruct (classify_deletion_inv fn f url d H) as (m & H1 & H2 & H3 & H4 & H5 & H6).
    exists m. repeat split; try assumption; try reflexivity. left. reflexivity.
Qed.

Lemma deletion_event_shape_witness :
  (exists d, process_entry "caixa.har" delete_entry = Some (EvDel d) /\
   exists f url m, read_entry delete_entry = Some f /\ as_str (f_url f) = Some url /\
    Re.search Re.regex_url url = None /\
    (Re.search Re.regex_cadastro_mesa url = None \/ eq_200 (f_status f) = false) /\
    contains "/inc/del_produtos.php" url = true /\
    as_str (f_method f) = Some m /\ str_upper m = "POST" /\
    isdigit (d_delete_id d) = true /\ d_request d = url /\ d_arquivo d = "caixa.har") /\
  (exists d, process_entry "caixa.har" cadastro_like_delete_entry = Some (EvDel d) /\
   d_delete_id d = "77" /\
   exists f url m, read_entry cadastro_like_delete_entry = Some f /\ as_str (f_url f) = Some url /\
    Re.search Re.regex_url url = None /\
    (Re.search Re.regex_cadastro_mesa url = None \/ eq_200 (f_status f) = false) /\
    contains "/inc/del_produtos.php" url = true /\
    as_str (f_method f) = Some m /\ str_upper m = "POST" /\
    isdigit (d_delete_id d) = true /\ d_request d = url /\ d_arquivo d = "caixa.har").
Proof.
  split.
  - eexists. split; [reflexivity|]. apply deletion_event_shape. reflexivity.
  - eexists. split; [vm_compute; reflexivity|]. split; [vm_compute; reflexivity|].
    apply deletion_event_shape. vm_compute. reflexivity.
Defined.

(* ------------------------------------------------------------------ *)
(** ** Registration events *)

Lemma lstrip_lstrip_set : forall s, lstrip s = lstrip_set is_space s.
Proof. induction s as [|c s IH]; cbn; [reflexivity|]. destruct (is_space c); auto. Qed.

Lemma strip_shape : forall s,
  strip s = EmptyString \/
  exists c t c' t', strip s = String c t /\ is_space c = false /\
    rev_str (strip s) = String c' t' /\ is_space c' = false.
Proof.
  intro s. unfold strip. rewrite !lstrip_lstrip_set.
  destruct (lstrip_set_head is_space s) as [->|(c & t & Ht & Hc)]; [left; reflexivity|].
  right. rewrite Ht.
  replace (rev_str (String c t)) with (string_of_list_ascii (rev (list_ascii_of_string t) ++ [c]))
    by reflexivity.
  destruct (lstrip_set_keeps_last is_space (rev (list_ascii_of_string t)) c Hc) as [l' Hl'].
  destruct (lstrip_set_head is_space (string_of_list_ascii (rev (list_ascii_of_string t) ++ [c])))
    as [He|(c' & t' & Hz & Hc')].
  { rewrite Hl' in He. destruct l'; discriminate. }
  rewrite Hl' in Hz |- *. rewrite rev_str_involutive.
  exists c, (string_of_list_ascii (rev l')), c', t'.
  unfold rev_str. rewrite list_ascii_of_string_of_list_ascii, rev_app_distr.
  repeat split; auto.
Qed.

(** X16: a table registration is recorded only for an entry whose URL does
    not match the order pattern, matches the registration pattern with a
    non-empty table id free of [&], and whose response status equals 200;
    the table recorded is that id after [unquote_plus] and [strip], so it
    neither starts nor ends with whitespace, and its [horario_cadastro] is
    the entry's [horario]. *)
Theorem registration_event_shape : forall fn e r,
  process_entry fn e = Some (EvReg r) ->
  exists f url m, read_entry e = Some f /\ as_str (f_url f) = Some url /\
    Re.search Re.regex_url url = None /\
    Re.search Re.regex_cadastro_mesa url = Some [m] /\ m <> EmptyString /\
    ~ In "&"%char (list_ascii_of_string m) /\
    eq_200 (f_status f) = true /\ r_mesa r = strip (unquote_plus m) /\
    r_request r = url /\ r_arquivo r = fn /\ r_horario_cadastro r = f_horario f /\
    (r_mesa r = EmptyString \/
     exists c t c' t', r_mesa r = String c t /\ is_space c = false /\
       rev_str (r_mesa r) = String c' t' /\ is_space c' = false).
Proof.
  intros fn e r H. unfold process_entry, Extract.obind in H.
  destruct (read_entry e) as [f|]; [|discriminate H]. exists f.
  unfold classify in H.
  destruct (as_str (f_url f)) as [url|] eqn:Eu; cbn [Extract.obind] in H; [|discriminate H].
  exists url.
  destruct (Re.search Re.regex_url url) as [caps|] eqn:Es.
  { destruct (search_regex_url _ _ Es) as (p & m & q & -> & _). no_order H. }
  destruct (Re.search Re.regex_cadastro_mesa url) as [caps|] eqn:Ec; [|no_order H].
  destruct (search_one_cap Re.regex_cadastro_mesa _ _ Re.NotAmp eq_refl Ec) as (m & -> & Hm & Hne).
  exists m. destruct (eq_200 (f_status f)) eqn:E2; [|no_order H].
  injection H as <-. cbn [r_mesa r_request r_arquivo r_horario_cadastro].
  repeat split; try assumption; try reflexivity.
  - apply all_cls_notamp, Hm.
  - apply strip_shape.
Qed.

Lemma registration_event_shape_witness : exists r,
  process_entry "abertura.har" (har_entry (cadastro_url "+Mesa%2005+") "2024-05-01T12:00:00Z" "")
    = Some (EvReg r) /\ r_mesa r = "Mesa 05" /\
  exists f url m, read_entry (har_entry (cadastro_url "+Mesa%2005+") "2024-05-01T12:00:00Z" "")
      = Some f /\ as_str (f_url f) = Some url /\
    Re.search Re.regex_url url = None /\
    Re.search Re.regex_cadastro_mesa url = Some [m] /\ m <> EmptyString /\
    ~ In "&"%char (list_ascii_of_string m) /\
    eq_200 (f_status f) = true /\ r_mesa r = strip (unquote_plus m) /\
    r_request r = url /\ r_arquivo r = "abertura.har" /\ r_horario_cadastro r = f_horario f /\
    (r_mesa r = EmptyString \/
     exists c t c' t', r_mesa r = String c t /\ is_space c = false /\
       rev_str (r_mesa r) = String c' t' /\ is_space c' = false).
Proof.
  eexists. split; [reflexivity|]. split; [reflexivity|].
  apply registration_event_shape. reflexivity.
Defined.

(* ------------------------------------------------------------------ *)
(** ** Order of the registrations table *)

(** X17: the registrations table is in increasing order of Sao Paulo wall
    time, rows whose [horario_cadastro] is NaT coming last: every row with
    a valid time is preceded only by rows with a valid time not later than
    it. *)
Theorem consolidate_regs_ordered : forall pd_parse cad l1 x l2 y b,
  consolidate_regs pd_parse cad = l1 ++ x :: l2 -> In y l1 ->
  reg_wall (reg_instants pd_parse cad) x = Some b ->
  exists a, reg_wall (reg_instants pd_parse cad) y = Some a /\ (a <= b)%Z.
Proof.
  intros pd cad l1 x l2 y b Hc Hy Hb.
  pose proof (drop_dup_mesa_sorted _ _ [] (sort_regs_sorted (reg_instants pd cad) cad)) as Hs.
  fold (consolidate_regs pd cad) in Hs. rewrite Hc in Hs. clear Hc.
  induction l1 as [|z l1 IH]; [contradiction|].
  inversion Hs as [|? ? Hs' Hz]; subst. destruct Hy as [<-|Hy].
  - apply (proj1 (Forall_forall _ _) Hz x); [apply in_or_app; right; left; reflexivity|exact Hb].
  - exact (IH Hy Hs').
Qed.

Lemma consolidate_regs_ordered_witness :
  let cad := snd (fst (collect double_registration_uploads)) in
  let inst := reg_instants (fun _ _ => None) cad in
  exists l1 x l2 y b, consolidate_regs (fun _ _ => None) cad = l1 ++ x :: l2 /\ In y l1 /\
    reg_wall inst x = Some b /\
    r_mesa y = "Mesa05" /\ r_mesa x = "Mesa06" /\
    exists a, reg_wall inst y = Some a /\ (a <= b)%Z.
Proof.
  intros cad inst.
  let k := eval vm_compute in (consolidate_regs (fun _ _ => None) cad) in
  match k with [?y; ?x] =>
    let w := eval vm_compute in (reg_wall inst x) in
    match w with Some ?b =>
      assert (Hc : consolidate_regs (fun _ _ => None) cad = [y] ++ x :: []) by (vm_compute; reflexivity);
      assert (Hy : In y [y]) by (left; reflexivity);
      assert (Hb : reg_wall inst x = Some b) by (vm_compute; reflexivity);
      exists [y], x, [], y, b
    end
  end.
  split; [exact Hc|]. split; [exact Hy|]. split; [exact Hb|].
  split; [reflexivity|]. split; [reflexivity|].
  exact (consolidate_regs_ordered (fun _ _ => None) cad _ _ _ _ _ Hc Hy Hb).
Defined.
